(** * BrainPlus backend: the attribution-and-fraud core

    A shallow embedding of
    - [backend/app/core/fraud_detection.py]  (the risk scorer),
    - [backend/app/api/v1/attribution.py]    (the redirect ledger),
    - [backend/app/api/v1/deals.py]          (the click endpoint),
    together with the properties the design document states about them.

    Conventions of the embedding.
    - A Python [str] is a Rocq [string] holding its UTF-8 bytes.
    - A Python [int] is a [Z].
    - A naive [datetime] has microsecond resolution and is the number of
      microseconds since the epoch, a [Z]; a [timedelta] is a number of
      microseconds, a [Z].  [datetime.now()] is read once per call and is
      the explicit argument [now] of the embedded function.
    - The module-level dictionaries [event_tracking] and [redirect_store]
      are threaded through the functions that use them: a function takes
      the dictionary and returns its result with the dictionary after the
      call.
    - The [float] arithmetic of the timing check is an interface.  Its
      instances for the interpreter are IEEE 754 binary64 with the [sum]
      of CPython up to 3.11 and with the compensated [sum] of CPython
      3.12 and later; the rationals are a third instance, the formulas
      read as mathematics.
    - The redirect response is the [Location] header and the status code
      the client receives: the header is the URL given to the response,
      percent-quoted by its constructor. *)

From Stdlib Require Import ZArith QArith Qcanon Lia Ascii SpecFloat.
From stdpp Require Import gmap strings list fin_maps sorting.

Local Open Scope Z_scope.

(* ===================================================================== *)
(** * The risk scorer: [fraud_detection.py] *)
(* ===================================================================== *)

Module FraudDetection.

Definition datetime : Type := Z.
Definition timedelta : Type := Z.

(** [timedelta(hours=h)] *)
Definition timedelta_hours (h : Z) : timedelta := h * 3600 * 1000000.

(** [timedelta(seconds=s)] *)
Definition timedelta_seconds (s : Z) : timedelta := s * 1000000.

(** [len(xs)] *)
Definition len {A} (xs : list A) : Z := Z.of_nat (length xs).

(** ** The arithmetic of seconds

    The timing check is the only place where the scorer leaves the
    integers: [total_seconds()] divides two integers into a [float], and
    the mean and the variance are computed on [float]s.  The operations
    the source applies are collected in an interface, so that what is
    proved of the scorer for every instance holds of the interpreter's
    arithmetic whatever its rounding, its summation and its power
    function are. *)
Class Floating (float : Type) : Type := {
  (** [a / b] on two [int]s *)
  int_truediv : Z -> Z -> float;
  (** an [int] operand of a [float] operation *)
  float_of_int : Z -> float;
  (** [sum(xs)] *)
  float_sum : list float -> float;
  (** [x - y] *)
  float_sub : float -> float -> float;
  (** [x / y] *)
  float_truediv : float -> float -> float;
  (** [x ** 2] *)
  float_square : float -> float;
  (** [x < y] *)
  float_lt : float -> float -> bool;
  (** the literal [1.0] *)
  float_1 : float
}.

(** The arithmetic of the rationals, in lowest terms.  This is not what
    the interpreter computes: it is the reading of the formulas as
    mathematics, the variance as the mean of the squared deviations from
    the mean, against which the computation in binary64 is compared. *)
#[export] Instance exact : Floating Qc := {
  int_truediv a b := (Q2Qc (inject_Z a) / Q2Qc (inject_Z b))%Qc;
  float_of_int z := Q2Qc (inject_Z z);
  float_sum xs := fold_left Qcplus xs 0%Qc;
  float_sub := Qcminus;
  float_truediv := Qcdiv;
  float_square x := (x * x)%Qc;
  float_lt x y := if Qclt_le_dec x y then true else false;
  float_1 := 1%Qc
}.

(** CPython's [float] is IEEE 754 binary64, rounding to nearest, ties to
    even. *)
Definition binary64 : Type := spec_float.

(** An [int] operand of a [float] operation is converted to the nearest
    binary64. *)
Definition binary64_of_int (z : Z) : binary64 :=
  binary_normalize 53 1024 z 0 false.

(** An [int] of any size, as a mantissa with exponent 0: no rounding. *)
Definition unrounded_int (z : Z) : binary64 :=
  match z with
  | Z0 => S754_zero false
  | Zpos m => S754_finite false m 0
  | Zneg m => S754_finite true m 0
  end.

(** [a / b] on two [int]s is the quotient of the integers rounded once,
    not the quotient of their conversions.  (The divisors of the source
    are the constant [10**6] of [total_seconds] and never 0.) *)
Definition binary64_int_truediv (a b : Z) : binary64 :=
  SFdiv 53 1024 (unrounded_int a) (unrounded_int b).

(** [sum(xs)] up to CPython 3.11: the first item is added to the [int] 0,
    and each further item to the running [double]. *)
Definition binary64_sum (xs : list binary64) : binary64 :=
  fold_left (SFadd 53 1024) xs (binary64_of_int 0).

(** [sum(xs)] from CPython 3.12 on: the running sum is kept with a
    compensation term (Neumaier's algorithm),
<<
    double t = f_result + x;
    if (fabs(f_result) >= fabs(x)) c += (f_result - t) + x;
    else                           c += (x - t) + f_result;
    f_result = t;
>>
    and at the end [if (c && isfinite(c)) f_result += c]. *)
Definition compensated_step (acc : binary64 * binary64) (x : binary64)
    : binary64 * binary64 :=
  let '(f_result, c) := acc in
  let t := SFadd 53 1024 f_result x in
  let lost :=
    if SFleb (SFabs x) (SFabs f_result)
    then SFadd 53 1024 (SFsub 53 1024 f_result t) x
    else SFadd 53 1024 (SFsub 53 1024 x t) f_result in
  (t, SFadd 53 1024 c lost).

Definition binary64_compensated_sum (xs : list binary64) : binary64 :=
  match xs with
  | [] => binary64_of_int 0
  | x0 :: xs' =>
      let '(f_result, c) :=
        fold_left compensated_step xs'
          (SFadd 53 1024 (binary64_of_int 0) x0, S754_zero false) in
      match c with
      | S754_finite _ _ _ => SFadd 53 1024 f_result c
      | _ => f_result
      end
  end.

(** The arithmetic of CPython up to 3.11.  [x ** 2] is the C library's
    [pow(x, 2.0)]; the instance takes the correctly rounded square, which
    is what [pow] returns when the square is a binary64 number or is not
    close to the middle of two of them, and which [pow] can miss by one
    unit in the last place otherwise. *)
#[export] Instance ieee : Floating binary64 := {
  int_truediv := binary64_int_truediv;
  float_of_int := binary64_of_int;
  float_sum := binary64_sum;
  float_sub := SFsub 53 1024;
  float_truediv := SFdiv 53 1024;
  float_square x := SFmul 53 1024 x x;
  float_lt := SFltb;
  float_1 := binary64_of_int 1
}.

(** The arithmetic of CPython from 3.12 on: as [ieee], with the
    compensated [sum]. *)
Definition ieee_compensated : Floating binary64 := {|
  int_truediv := binary64_int_truediv;
  float_of_int := binary64_of_int;
  float_sum := binary64_compensated_sum;
  float_sub := SFsub 53 1024;
  float_truediv := SFdiv 53 1024;
  float_square x := SFmul 53 1024 x x;
  float_lt := SFltb;
  float_1 := binary64_of_int 1
|}.

Section Scorer.

Context {float : Type} {arith : Floating float}.

(** [d.total_seconds()] *)
Definition total_seconds (d : timedelta) : float := int_truediv d 1000000.

(** The list comprehension
    [[(h[i] - h[i-1]).total_seconds() for i in range(1, len(h))]]. *)
Definition intervals (h : list datetime) : list float :=
  map (fun i : nat => total_seconds (h !!! i - h !!! (i - 1)%nat))
      (seq 1 (length h - 1)).

(** [sum(intervals) / len(intervals)] *)
Definition mean_interval (ivs : list float) : float :=
  float_truediv (float_sum ivs) (float_of_int (len ivs)).

(** [sum((x - mean_interval) ** 2 for x in intervals) / len(intervals)] *)
Definition variance (ivs : list float) : float :=
  let m := mean_interval ivs in
  float_truediv
    (float_sum (map (fun x => float_square (float_sub x m)) ivs))
    (float_of_int (len ivs)).

(** [check_fraud_score(anonymous_id, num_events)], statement by statement.
    The subscript [event_tracking[anonymous_id]] cannot raise [KeyError]:
    the key is inserted by the first statements when absent, so the total
    lookup [!!!] is the subscript. *)
Definition check_fraud_score (now : datetime) (anonymous_id : string)
    (num_events : Z) (event_tracking : gmap string (list datetime))
    : Z * gmap string (list datetime) :=
  let score := 0 in
  (* if anonymous_id not in event_tracking: event_tracking[anonymous_id] = [] *)
  let event_tracking :=
    match event_tracking !! anonymous_id with
    | None => <[anonymous_id := []]> event_tracking
    | Some _ => event_tracking
    end in
  (* event_tracking[anonymous_id].append(now) *)
  let event_tracking :=
    <[anonymous_id := (event_tracking !!! anonymous_id) ++ [now]]>
      event_tracking in
  (* keep ts with now - ts < timedelta(hours=24) *)
  let event_tracking :=
    <[anonymous_id :=
        filter (fun ts => now - ts < timedelta_hours 24)
               (event_tracking !!! anonymous_id)]> event_tracking in
  (* velocity checks *)
  let recent_events :=
    filter (fun ts => now - ts < timedelta_hours 1)
           (event_tracking !!! anonymous_id) in
  let events_per_hour := len recent_events in
  let score :=
    if 100 <? events_per_hour then score + 40
    else if 50 <? events_per_hour then score + 20
    else score in
  (* batch size check *)
  let score := if 80 <? num_events then score + 10 else score in
  (* behavioral entropy *)
  let behavioral_score := 0 in
  let score := score + behavioral_score in
  (* timing patterns *)
  let score :=
    if 10 <? len (event_tracking !!! anonymous_id) then
      let ivs := intervals (event_tracking !!! anonymous_id) in
      match ivs with
      | [] => score
      | _ :: _ =>
          if float_lt (variance ivs) float_1 then score + 20 else score
      end
    else score in
  (* fingerprint *)
  let fingerprint_score := 0 in
  let score := score + fingerprint_score in
  (Z.min score 100, event_tracking).

(** The timing term of the sum, as a function of the pruned history. *)
Definition timing_term (h : list datetime) : Z :=
  if 10 <? len h then
    match intervals h with
    | [] => 0
    | _ :: _ => if float_lt (variance (intervals h)) float_1 then 20 else 0
    end
  else 0.

End Scorer.

(** ** The contributions, named

    The same computation cut at the places the design document names:
    the history after the call, the count within the trailing hour, and
    one function per term of the sum. *)

Definition within (window : timedelta) (now ts : datetime) : Prop :=
  now - ts < window.

#[global] Instance within_dec window now ts : Decision (within window now ts).
Proof. unfold within. apply _. Defined.

(** The history stored for the identity before a call ([[]] when the
    identity has none yet). *)
Definition history_of (anonymous_id : string)
    (event_tracking : gmap string (list datetime)) : list datetime :=
  default [] (event_tracking !! anonymous_id).

(** The history the call leaves behind. *)
Definition pruned_history (now : datetime) (old : list datetime)
    : list datetime :=
  filter (within (timedelta_hours 24) now) (old ++ [now]).

Definition events_per_hour (now : datetime) (h : list datetime) : Z :=
  len (filter (within (timedelta_hours 1) now) h).

Definition velocity_term (count : Z) : Z :=
  if 100 <? count then 40 else if 50 <? count then 20 else 0.

Definition batch_term (num_events : Z) : Z :=
  if 80 <? num_events then 10 else 0.

Definition behavioral_term : Z := 0.

Definition fingerprint_term : Z := 0.

Definition contributions {float : Type} {arith : Floating float}
    (now : datetime) (num_events : Z) (h : list datetime) : Z :=
  velocity_term (events_per_hour now h) + batch_term num_events
  + behavioral_term + timing_term h + fingerprint_term.

(** [clamp lo hi x]: [x] brought into the closed interval [[lo, hi]]. *)
Definition clamp (lo hi x : Z) : Z := Z.max lo (Z.min x hi).

(** A history of [n] events, the first at [t0], [step] microseconds apart. *)
Definition spaced (t0 step : Z) (n : nat) : list datetime :=
  map (fun i : nat => t0 + Z.of_nat i * step) (seq 0 n).

(** The [i]-th event of a history whose gaps alternate between 5 s and
    1 s: 0 s, 5 s, 6 s, 11 s, 12 s, ... *)
Definition alternating_at (i : nat) : datetime :=
  Z.of_nat i * 3000000 + (Z.of_nat i mod 2) * 2000000.

Definition alternating (n : nat) : list datetime :=
  map alternating_at (seq 0 n).

(** The [i]-th event of a history whose gaps alternate between 0.3 s and
    2.3 s: 0 s, 0.3 s, 2.6 s, 2.9 s, 5.2 s, ...  The mean of the gaps is
    1.3 s and every gap is 1 s away from it. *)
Definition uneven_at (i : nat) : datetime :=
  Z.of_nat i * 1300000 - (Z.of_nat i mod 2) * 1000000.

Definition uneven (n : nat) : list datetime :=
  map uneven_at (seq 0 n).

End FraudDetection.

(* ===================================================================== *)
(** * [urllib.parse]: the part [create_redirect_mapping] calls *)
(* ===================================================================== *)

Module Urllib.

Local Open Scope string_scope.

Definition in_range (lo hi : N) (c : ascii) : bool :=
  ((lo <=? N_of_ascii c) && (N_of_ascii c <=? hi))%N.

(** [_ALWAYS_SAFE]: letters, digits and [_.-~]. *)
Definition always_safe (c : ascii) : bool :=
  in_range 65 90 c || in_range 97 122 c || in_range 48 57 c
  || Ascii.eqb c "_" || Ascii.eqb c "." || Ascii.eqb c "-" || Ascii.eqb c "~".

Definition hex_upper (n : N) : ascii :=
  default "0"%char (String.get (N.to_nat n) "0123456789ABCDEF").

(** ['%{:02X}'.format(b)] *)
Definition percent_byte (c : ascii) : string :=
  String "%" (String (hex_upper (N_of_ascii c / 16))
                (String (hex_upper (N_of_ascii c mod 16)) EmptyString)).

Fixpoint contains (c : ascii) (s : string) : bool :=
  match s with
  | EmptyString => false
  | String d s' => Ascii.eqb c d || contains c s'
  end.

(** [quote(string, safe)]: every byte of the UTF-8 encoding that is
    neither always safe nor in [safe] becomes [%XX]. *)
Fixpoint quote (safe : string) (s : string) : string :=
  match s with
  | EmptyString => EmptyString
  | String c s' =>
      (if always_safe c || contains c safe
       then String c EmptyString else percent_byte c) ++ quote safe s'
  end.

(** [string.replace(' ', '+')] *)
Fixpoint replace_space (s : string) : string :=
  match s with
  | EmptyString => EmptyString
  | String c s' =>
      String (if Ascii.eqb c " " then "+"%char else c) (replace_space s')
  end.

(** [quote_plus(string, safe='')] *)
Definition quote_plus (s : string) : string :=
  if negb (contains " " s) then quote EmptyString s
  else replace_space (quote " " s).

(** ['&'.join(l)] *)
Fixpoint join (sep : string) (l : list string) : string :=
  match l with
  | [] => EmptyString
  | [x] => x
  | x :: l' => x ++ sep ++ join sep l'
  end.

(** [urlencode(query)] for a dictionary of [str] keys and [str] values,
    given as its items in insertion order. *)
Definition urlencode (query : list (string * string)) : string :=
  join "&" (map (fun kv => quote_plus (fst kv) ++ "=" ++ quote_plus (snd kv))
                query).

(** The inverse direction, [unquote_plus], as the reader of a query
    string applies it to each name and value. *)
Definition hex_val (c : ascii) : option N :=
  if in_range 48 57 c then Some (N_of_ascii c - 48)%N
  else if in_range 65 70 c then Some (N_of_ascii c - 55)%N
  else if in_range 97 102 c then Some (N_of_ascii c - 87)%N
  else None.

Fixpoint unquote_plus (s : string) : string :=
  match s with
  | EmptyString => EmptyString
  | String c rest =>
      if Ascii.eqb c "+" then String " " (unquote_plus rest)
      else if Ascii.eqb c "%" then
        match rest with
        | String h (String l rest') =>
            match hex_val h, hex_val l with
            | Some a, Some b =>
                String (ascii_of_N (16 * a + b)) (unquote_plus rest')
            | _, _ => String c (unquote_plus rest)
            end
        | _ => String c (unquote_plus rest)
        end
      else String c (unquote_plus rest)
  end.

(** [s.split(sep)] for a separator of one character. *)
Fixpoint split (sep : ascii) (s : string) : list string :=
  match s with
  | EmptyString => [EmptyString]
  | String c s' =>
      if Ascii.eqb c sep then EmptyString :: split sep s'
      else match split sep s' with
           | x :: l => String c x :: l
           | [] => [String c EmptyString]
           end
  end.

(** [s.split(sep, 1)]: the part before the first separator, and the part
    after it when there is one. *)
Fixpoint split_once (sep : ascii) (s : string) : string * option string :=
  match s with
  | EmptyString => (EmptyString, None)
  | String c s' =>
      if Ascii.eqb c sep then (EmptyString, Some s')
      else let '(before, after) := split_once sep s' in
           (String c before, after)
  end.

(** [parse_qsl(qs, keep_blank_values=True)]: how the receiver of the URL
    reads the query string back into names and values. *)
Definition parse_qsl (qs : string) : list (string * string) :=
  flat_map
    (fun name_value =>
       if String.eqb name_value EmptyString then []
       else let '(name, value) := split_once "=" name_value in
            [(unquote_plus name, unquote_plus (default EmptyString value))])
    (split "&" qs).

(** The characters a quoted name or value can contain. *)
Definition query_safe (c : ascii) : bool :=
  always_safe c || Ascii.eqb c "+" || Ascii.eqb c "%".

(** [all(p(c) for c in s)] *)
Fixpoint all_of (p : ascii -> bool) (s : string) : bool :=
  match s with
  | EmptyString => true
  | String c s' => p c && all_of p s'
  end.

(** What [quote_plus] makes of one byte. *)
Definition quote_plus_byte (c : ascii) : string :=
  if always_safe c then String c EmptyString
  else if Ascii.eqb c " " then "+"
  else percent_byte c.

(** [needle in haystack] for strings. *)
Definition occurs_in (needle haystack : string) : Prop :=
  exists pre post, haystack = pre ++ needle ++ post.

End Urllib.

(* ===================================================================== *)
(** * The redirect ledger: [attribution.py] *)
(* ===================================================================== *)

Module Attribution.

Local Open Scope string_scope.

(** The dictionary literal stored per token:
    [{"url": full_url, "created_at": "timestamp"}].  It has two keys, so
    it is never falsy. *)
Record mapping := { url : string; created_at : string }.

(** The response of the endpoint, as far as the client sees it: the
    [Location] header and the status code. *)
Record RedirectResponse := { location : string; status_code : Z }.

(** The characters the response leaves as they are in [Location], beside
    the always safe ones: the [safe] argument of its call of [quote]. *)
Definition location_safe : string := ":/%#?=@[]!$&'()*+,;".

(** [quote(str(url), safe=":/%#?=@[]!$&'()*+,;")] *)
Definition quote_location (url : string) : string :=
  Urllib.quote location_safe url.

(** [RedirectResponse(url=..., status_code=...)]: the constructor sets
    [headers["location"] = quote(str(url), safe=":/%#?=@[]!$&'()*+,;")],
    so every byte of the URL that is not a letter, a digit or one of
    [_.-~:/%#?=@[]!$&'()*+,;] reaches the client as [%XX]. *)
Definition RedirectResponse_init (url : string) (status_code : Z)
    : RedirectResponse :=
  {| location := quote_location url; status_code := status_code |}.

(** The bytes [quote_location] leaves as they are. *)
Definition location_char (c : ascii) : bool :=
  Urllib.always_safe c || Urllib.contains c location_safe.

(** The URL served when the token has no mapping. *)
Definition mock_redirect (short_id : string) : string :=
  "https://example.com?aff_id=datapay&ref=" ++ short_id.

(** [attribution_redirect(short_id)] *)
Definition attribution_redirect (short_id : string)
    (redirect_store : gmap string mapping)
    : RedirectResponse * gmap string mapping :=
  let mapping := redirect_store !! short_id in
  let merchant_url :=
    match mapping with
    | None => mock_redirect short_id
    | Some m => url m
    end in
  (RedirectResponse_init merchant_url 302, redirect_store).

(** [create_redirect_mapping(short_id, merchant_url, affiliate_params)] *)
Definition create_redirect_mapping (short_id merchant_url : string)
    (affiliate_params : list (string * string))
    (redirect_store : gmap string mapping)
    : string * gmap string mapping :=
  let params_str := Urllib.urlencode affiliate_params in
  let full_url := merchant_url ++ "?" ++ params_str in
  (short_id,
   <[short_id := {| url := full_url; created_at := "timestamp" |}]>
     redirect_store).

(** [k] successive requests for the same token: the responses in order,
    and the ledger after the last one. *)
Fixpoint resolve_times (k : nat) (short_id : string)
    (redirect_store : gmap string mapping)
    : list RedirectResponse * gmap string mapping :=
  match k with
  | O => ([], redirect_store)
  | S k' =>
      let '(r, store1) := attribution_redirect short_id redirect_store in
      let '(rs, store2) := resolve_times k' short_id store1 in
      (r :: rs, store2)
  end.

End Attribution.

(* ===================================================================== *)
(** * [hashlib.md5]: the digest the click endpoint truncates (RFC 1321) *)
(* ===================================================================== *)

Module Hashlib.

Definition w32 (x : Z) : Z := x mod 2 ^ 32.

Definition rotl (x s : Z) : Z :=
  w32 (Z.lor (Z.shiftl x s) (Z.shiftr x (32 - s))).

Definition not32 (x : Z) : Z := Z.lxor x 0xffffffff.

(** [K[i] = floor(2^32 * abs(sin(i + 1)))] *)
Definition K : list Z :=
  [ 0xd76aa478; 0xe8c7b756; 0x242070db; 0xc1bdceee;
    0xf57c0faf; 0x4787c62a; 0xa8304613; 0xfd469501;
    0x698098d8; 0x8b44f7af; 0xffff5bb1; 0x895cd7be;
    0x6b901122; 0xfd987193; 0xa679438e; 0x49b40821;
    0xf61e2562; 0xc040b340; 0x265e5a51; 0xe9b6c7aa;
    0xd62f105d; 0x02441453; 0xd8a1e681; 0xe7d3fbc8;
    0x21e1cde6; 0xc33707d6; 0xf4d50d87; 0x455a14ed;
    0xa9e3e905; 0xfcefa3f8; 0x676f02d9; 0x8d2a4c8a;
    0xfffa3942; 0x8771f681; 0x6d9d6122; 0xfde5380c;
    0xa4beea44; 0x4bdecfa9; 0xf6bb4b60; 0xbebfbc70;
    0x289b7ec6; 0xeaa127fa; 0xd4ef3085; 0x04881d05;
    0xd9d4d039; 0xe6db99e5; 0x1fa27cf8; 0xc4ac5665;
    0xf4292244; 0x432aff97; 0xab9423a7; 0xfc93a039;
    0x655b59c3; 0x8f0ccc92; 0xffeff47d; 0x85845dd1;
    0x6fa87e4f; 0xfe2ce6e0; 0xa3014314; 0x4e0811a1;
    0xf7537e82; 0xbd3af235; 0x2ad7d2bb; 0xeb86d391 ].

(** Per-round left-rotation amounts. *)
Definition shifts : list Z :=
  [ 7; 12; 17; 22; 7; 12; 17; 22; 7; 12; 17; 22; 7; 12; 17; 22;
    5;  9; 14; 20; 5;  9; 14; 20; 5;  9; 14; 20; 5;  9; 14; 20;
    4; 11; 16; 23; 4; 11; 16; 23; 4; 11; 16; 23; 4; 11; 16; 23;
    6; 10; 15; 21; 6; 10; 15; 21; 6; 10; 15; 21; 6; 10; 15; 21 ].

Definition state : Type := Z * Z * Z * Z.

Definition init : state := (0x67452301, 0xefcdab89, 0x98badcfe, 0x10325476).

(** [n] bytes of [x], least significant first. *)
Fixpoint le_bytes (n : nat) (x : Z) : list Z :=
  match n with
  | O => []
  | S n' => x mod 256 :: le_bytes n' (x / 256)
  end.

(** The value of a little-endian byte sequence. *)
Fixpoint le_word (bs : list Z) : Z :=
  match bs with
  | [] => 0
  | b :: bs' => b + 256 * le_word bs'
  end.

(** The sixteen 32-bit words of a 64-byte block. *)
Definition words (block : list Z) : list Z :=
  map (fun j : nat => le_word (take 4 (drop (4 * j) block))) (seq 0 16).

Definition round (M : list Z) (st : state) (i : nat) : state :=
  let '(A, B, C, D) := st in
  let iz := Z.of_nat i in
  let '(F, g) :=
    if iz <? 16 then (Z.lor (Z.land B C) (Z.land (not32 B) D), iz)
    else if iz <? 32 then
      (Z.lor (Z.land D B) (Z.land (not32 D) C), (5 * iz + 1) mod 16)
    else if iz <? 48 then (Z.lxor B (Z.lxor C D), (3 * iz + 5) mod 16)
    else (Z.lxor C (Z.lor B (not32 D)), (7 * iz) mod 16) in
  let F' := w32 (F + A + K !!! i + M !!! Z.to_nat g) in
  (D, w32 (B + rotl F' (shifts !!! i)), B, C).

Definition compress (st : state) (block : list Z) : state :=
  let '(a0, b0, c0, d0) := st in
  let '(A, B, C, D) := fold_left (round (words block)) (seq 0 64) st in
  (w32 (a0 + A), w32 (b0 + B), w32 (c0 + C), w32 (d0 + D)).

(** The message, a [1] bit, zeros up to 56 modulo 64, and the length in
    bits on 8 bytes. *)
Definition pad (msg : list Z) : list Z :=
  let n := Z.of_nat (length msg) in
  msg ++ [128] ++ replicate (Z.to_nat ((55 - n) mod 64)) 0
      ++ le_bytes 8 ((8 * n) mod 2 ^ 64).

Fixpoint blocks (count : nat) (bytes : list Z) : list (list Z) :=
  match count with
  | O => []
  | S count' => take 64 bytes :: blocks count' (drop 64 bytes)
  end.

Definition bytes_of (s : string) : list Z :=
  map (fun c => Z.of_N (N_of_ascii c)) (String.list_ascii_of_string s).

(** [hashlib.md5(data)]: the internal state after the last block. *)
Definition md5 (data : string) : state :=
  let padded := pad (bytes_of data) in
  fold_left compress (blocks (length padded / 64) padded) init.

Definition hex_lower (n : Z) : ascii :=
  default "0"%char (String.get (Z.to_nat n) "0123456789abcdef").

Definition hex_byte (b : Z) : string :=
  String (hex_lower (b / 16)) (String (hex_lower (b mod 16)) EmptyString).

Definition hex_word (w : Z) : string :=
  (hex_byte (w mod 256) ++ hex_byte (w / 256 mod 256)
   ++ hex_byte (w / 65536 mod 256) ++ hex_byte (w / 16777216 mod 256))%string.

(** [h.hexdigest()]: 32 lowercase hexadecimal digits. *)
Definition hexdigest (st : state) : string :=
  let '(a, b, c, d) := st in
  (hex_word a ++ hex_word b ++ hex_word c ++ hex_word d)%string.

End Hashlib.

(* ===================================================================== *)
(** * The click endpoint: [deals.py] *)
(* ===================================================================== *)

Module Deals.

Local Open Scope string_scope.

(** [DealClickResponse] *)
Record DealClickResponse := { success : bool; short_id : string }.

(** What a handler produces: its response model, or a raised
    [HTTPException(status_code, detail)]. *)
Inductive outcome (A : Type) : Type :=
  | Returns (a : A)
  | HTTPException (status_code : Z) (detail : string).
Arguments Returns {A} a.
Arguments HTTPException {A} status_code detail.

(** [not x_anonymous_id]: the header is absent or empty. *)
Definition falsy (x : option string) : bool :=
  match x with
  | None => true
  | Some s => String.eqb s EmptyString
  end.

(** [s[:n]] *)
Definition prefix (n : nat) (s : string) : string := String.substring 0 n s.

(** [record_deal_click(deal_id, x_anonymous_id)] *)
Definition record_deal_click (deal_id : string)
    (x_anonymous_id : option string) : outcome DealClickResponse :=
  if falsy x_anonymous_id then
    HTTPException 400 "Anonymous ID required"
  else
    let short_id :=
      prefix 8 (Hashlib.hexdigest
                  (Hashlib.md5 (deal_id ++ default EmptyString x_anonymous_id)))
    in
    Returns {| success := true; short_id := short_id |}.

End Deals.

(* ===================================================================== *)
(** * Successive scoring calls *)
(* ===================================================================== *)

Module ScorerCalls.

Import FraudDetection.

(** The calls [check_fraud_score(id, n)] made one after the other for one
    identity, each with the value [datetime.now()] had when it ran: the
    scores in order, and [event_tracking] after the last call. *)
Fixpoint score_calls {float : Type} {arith : Floating float} (id : string)
    (calls : list (datetime * Z)) (event_tracking : gmap string (list datetime))
    : list Z * gmap string (list datetime) :=
  match calls with
  | [] => ([], event_tracking)
  | (now, num_events) :: rest =>
      let '(score, et1) := check_fraud_score now id num_events event_tracking in
      let '(scores, et2) := score_calls id rest et1 in
      (score :: scores, et2)
  end.

(** All of [h] within the hour that starts at [lo]. *)
Definition in_hour (lo : datetime) (h : list datetime) : Prop :=
  Forall (fun ts => lo <= ts < lo + timedelta_hours 1) h.

(** Every timestamp moved by the same amount. *)
Definition shifted (d : timedelta) (h : list datetime) : list datetime :=
  map (fun ts => ts + d) h.

End ScorerCalls.

(* ===================================================================== *)
(** * Reading stored URLs *)
(* ===================================================================== *)

Module StoredUrl.

Local Open Scope string_scope.

(** [s.count(c)] for a character [c]. *)
Fixpoint count (c : ascii) (s : string) : nat :=
  match s with
  | EmptyString => O
  | String d s' => ((if Ascii.eqb c d then 1 else 0) + count c s')%nat
  end.

(** A name or value made of letters, digits and [_.-~] only. *)
Definition plain (s : string) : bool := Urllib.all_of Urllib.always_safe s.

(** ['&'.join(k + '=' + v for k, v in query)]: the query string written
    without any escaping. *)
Definition unescaped (query : list (string * string)) : string :=
  Urllib.join "&" (map (fun kv => fst kv ++ "=" ++ snd kv) query).

End StoredUrl.

(* ===================================================================== *)
(** * The deal endpoints: [deals.py], [get_deals] and [match_deals] *)
(* ===================================================================== *)

Module DealsListing.

Import FraudDetection.
Local Open Scope string_scope.

(** The literal [a/b] with [a], [b] decimal, as the nearest binary64. *)
Definition literal (a b : Z) : binary64 := int_truediv (Floating := ieee) a b.

(** [class Deal(BaseModel)] *)
Record Deal := {
  id : string;
  merchant_name : string;
  merchant_domain : string;
  title : string;
  description : string;
  discount_percent : option Z;
  discount_amount : option binary64;
  category : string;
  thumbnail_url : option string;
  redirect_url : string;
  expires_at : option Z;
  min_intent_score : binary64;
  points_reward : Z;
  deal_score : binary64
}.

(** [class DealsResponse(BaseModel)] *)
Record DealsResponse := {
  success : bool;
  deals : list Deal;
  total_count : Z;
  matched_categories : list string;
  timestamp : Z
}.

Definition mock_deals : list Deal :=
  [ {| id := "deal_001";
       merchant_name := "Amazon";
       merchant_domain := "amazon.com";
       title := "20% Off Electronics";
       description :=
         "Get 20% off on select electronics. Limited time offer!";
       discount_percent := Some 20;
       discount_amount := None;
       category := "electronics";
       thumbnail_url := None;
       redirect_url := "/r/abc123";
       expires_at := None;
       min_intent_score := literal 7 10;
       points_reward := 50;
       deal_score := literal 9 10 |} ].

(** [x >= y] on floats: [y <= x], false when either is a NaN. *)
Definition float_ge (x y : binary64) : bool := SFleb y x.

(** [get_deals(domain, category, intent_score, x_anonymous_id)];
    [now_ms] is [int(datetime.now().timestamp() * 1000)]. *)
Definition get_deals (now_ms : Z) (domain category : string)
    (intent_score : binary64) (x_anonymous_id : option string)
    : DealsResponse :=
  let matched_deals :=
    List.filter (fun d => float_ge intent_score (min_intent_score d))
                mock_deals in
  {| success := true;
     deals := matched_deals;
     total_count := len matched_deals;
     matched_categories := [category];
     timestamp := now_ms |}.

End DealsListing.

Module DealsMatching.

Import FraudDetection.
Local Open Scope string_scope.

(** [class Signal(BaseModel)] *)
Record Signal := {
  category : string;
  entities : list string;
  intentScore : binary64;
  pageCount : Z;
  timeWindow : string
}.

(** [class SignalPayload(BaseModel)] *)
Record SignalPayload := {
  anonymousId : string;
  signals : list Signal;
  timestamp : Z
}.

(** [class DealMatch(BaseModel)] *)
Record DealMatch := {
  type : string;
  title : string;
  description : option string;
  merchant : string;
  price : option string;
  originalPrice : option string;
  discount : option string;
  imageUrl : option string;
  redirectUrl : string;
  reason : string;
  commission : option string;
  expiresAt : option Z
}.

(** The dictionary [match_deals] returns:
    [{"success", "data": {"matches", "pointsEarned"}, "timestamp"}]. *)
Record MatchData := { matches : list DealMatch; pointsEarned : Z }.
Record MatchResponse := {
  success : bool;
  data : MatchData;
  response_timestamp : Z
}.

Section Clock.

(** What the handlers read from the clock: [isoformat now] is
    [now.isoformat()] and [epoch_millis now] is
    [int(now.timestamp() * 1000)]; [clock k] is the value of the [k]-th
    [datetime.now()] of a request, counted from 0. *)
Variable isoformat : datetime -> string.
Variable epoch_millis : datetime -> Z.
Variable clock : nat -> datetime.

(** [generate_short_id(product_slug, user_id)], reading the clock once. *)
Definition generate_short_id (product_slug user_id : string)
    (now : datetime) : string :=
  let combined := product_slug ++ ":" ++ user_id ++ ":" ++ isoformat now in
  Deals.prefix 12 (Hashlib.hexdigest (Hashlib.md5 combined)).

(** [any(kw in known for kw in keywords)] *)
Definition any_in (known keywords : list string) : bool :=
  existsb (fun kw => bool_decide (kw ∈ known)) keywords.

(** [f"Based on your interest in '{', '.join(keywords[:2])}'"] *)
Definition reason_for (keywords : list string) : string :=
  "Based on your interest in '" ++ Urllib.join ", " (take 2 keywords) ++ "'".

(** One product deal; every deal of the source has [type="product"] and
    [expiresAt=None]. *)
Definition product (title : string) (description : string)
    (merchant price originalPrice discount : string)
    (imageUrl : option string) (short_id : string)
    (keywords : list string) (commission : string) : DealMatch :=
  {| type := "product";
     title := title;
     description := Some description;
     merchant := merchant;
     price := Some price;
     originalPrice := Some originalPrice;
     discount := Some discount;
     imageUrl := imageUrl;
     redirectUrl := "/r/" ++ short_id;
     reason := reason_for keywords;
     commission := Some commission;
     expiresAt := None |}.

(** The body of [for signal in payload.signals]: the matches so far and
    the number of clock reads so far, before and after the signal. *)
Definition match_signal (anonymousId : string)
    (st : list DealMatch * nat) (signal : Signal) : list DealMatch * nat :=
  let '(matches, reads) := st in
  let keywords := entities signal in
  if String.eqb (category signal) "electronics"
     && any_in ["headphones"; "audio"; "wireless"; "noise"; "sound"] keywords
  then
    ((matches
     ++ [ product "Sony WH-1000XM5 Wireless Headphones"
            "Industry-leading noise cancellation"
            "Amazon" "$348" "$399" "13% off"
            (Some
               "https://m.media-amazon.com/images/I/51K0kOPmF9L._AC_SL1500_.jpg")
            (generate_short_id "sony-xm5" anonymousId (clock reads))
            keywords "5%";
          product "Apple AirPods Pro (2nd Generation)"
            "Active Noise Cancellation and Adaptive Transparency"
            "Apple" "$249" "$299" "$50 off" None
            (generate_short_id "airpods-pro" anonymousId (clock (S reads)))
            keywords "3%" ])%list,
     S (S reads))
  else if String.eqb (category signal) "fitness"
          && any_in ["running"; "shoes"; "workout"; "exercise"; "nike"]
               keywords
  then
    ((matches
     ++ [ product "Nike Pegasus 40 Running Shoes"
            "Responsive cushioning for any run"
            "Nike" "$130" "$140" "$10 off" None
            (generate_short_id "nike-pegasus" anonymousId (clock reads))
            keywords "8%" ])%list,
     S reads)
  else if String.eqb (category signal) "general"
          && any_in ["bottle"; "cup"; "water"; "drink"; "insulated"; "baby";
                     "toddler"; "sippy"] keywords
  then
    ((matches
     ++ [ product "Owala FreeSip Insulated Water Bottle"
            "32 oz stainless steel with FreeSip spout"
            "Amazon" "$27.99" "$37.99" "26% off" None
            (generate_short_id "owala-bottle" anonymousId (clock reads))
            keywords "4%";
          product "Contigo AUTOSEAL Travel Mug"
            "Vacuum-insulated stainless steel, 20 oz"
            "Target" "$19.99" "$24.99" "20% off" None
            (generate_short_id "contigo-mug" anonymousId (clock (S reads)))
            keywords "3%" ])%list,
     S (S reads))
  else (matches, reads).

(** [match_deals(payload, x_anonymous_id)] *)
Definition match_deals (payload : SignalPayload)
    (x_anonymous_id : option string) : MatchResponse :=
  let '(matches, reads) :=
    fold_left (match_signal (anonymousId payload)) (signals payload) ([], O)
  in
  let points_earned := 10 in
  let matches := take 2 matches in
  {| success := true;
     data := {| matches := matches; pointsEarned := points_earned |};
     response_timestamp := epoch_millis (clock reads) |}.

(** The titles a signal contributes, in order. *)
Definition titles_for (signal : Signal) : list string :=
  map title (fst (match_signal EmptyString ([], O) signal)).

End Clock.

(** Lowercase hexadecimal digits. *)
Definition is_hex (c : ascii) : bool :=
  Urllib.in_range 48 57 c || Urllib.in_range 97 102 c.

(** A redirect path of the form [/r/] and 12 lowercase hexadecimal
    digits. *)
Definition short_redirect (m : DealMatch) : Prop :=
  exists short_id : string,
    redirectUrl m = "/r/" ++ short_id
    /\ String.length short_id = 12%nat
    /\ Urllib.all_of is_hex short_id = true.

(** The categories that can produce a deal. *)
Definition known_category (c : string) : Prop :=
  c ∈ ["electronics"; "fitness"; "general"].

(** A signal for electronics or for general goods that names a known
    keyword: the two branches of the loop that append two deals. *)
Definition two_deal_signal (signal : Signal) : Prop :=
  (category signal = "electronics"
   /\ exists kw, kw ∈ entities signal
        /\ kw ∈ ["headphones"; "audio"; "wireless"; "noise"; "sound"])
  \/ (category signal = "general"
      /\ exists kw, kw ∈ entities signal
           /\ kw ∈ ["bottle"; "cup"; "water"; "drink"; "insulated"; "baby";
                    "toddler"; "sippy"]).

End DealsMatching.

Import FraudDetection.

Example score_first_call :
  check_fraud_score (arith := ieee) 1000 "u1" 1 ∅
  = (0, {[ "u1"%string := [1000] ]}).
Proof. vm_compute. reflexivity. Qed.

Example score_eleven_regular :
  fst (check_fraud_score (arith := ieee) 50000000 "u1" 1
         {[ "u1"%string := spaced 0 5000000 10 ]}) = 20.
Proof. vm_compute. reflexivity. Qed.

(** The binary64 instance on an irregular history: the variance is
    [0x1.ed29ab3cd5363p-41], the value CPython 3.11 gives for it. *)
Example variance_irregular_ieee :
  variance (arith := ieee)
    (intervals [0; 1234567; 2469135; 3703702; 4938271; 6172838; 7407407;
                8641975; 9876543; 11111112; 12345678; 13580246])
  = S754_finite false 8675811184694115 (-93).
Proof. vm_compute. reflexivity. Qed.

(** One microsecond in seconds is the binary64 number nearest to 1e-6. *)
Example total_seconds_microsecond :
  total_seconds (arith := ieee) 1
  = S754_finite false 4722366482869645 (-72).
Proof. vm_compute. reflexivity. Qed.

(* ===================================================================== *)
(** * Properties of the risk scorer *)
(* ===================================================================== *)

Section ScorerFacts.

Context {float : Type} {arith : Floating float}.

Implicit Types (now : datetime) (id : string) (n : Z).
Implicit Types (et : gmap string (list datetime)) (h : list datetime).

(** The history after the call: one insertion of the pruned history. *)
Lemma check_fraud_score_store now id n et :
  snd (check_fraud_score now id n et)
  = <[id := pruned_history now (history_of id et)]> et.
Proof.
  unfold check_fraud_score, pruned_history, history_of; cbn [snd].
  destruct (et !! id) as [old|] eqn:Hold; cbn [default].
  - rewrite !lookup_total_insert_eq, !insert_insert_eq.
    by rewrite (lookup_total_correct _ _ _ Hold).
  - by rewrite !lookup_total_insert_eq, !insert_insert_eq.
Qed.

Lemma check_fraud_score_history now id n et :
  snd (check_fraud_score now id n et) !!! id
  = pruned_history now (history_of id et).
Proof. by rewrite check_fraud_score_store, lookup_total_insert_eq. Qed.

(** The score: the clamped sum of the named contributions. *)
Lemma check_fraud_score_value now id n et :
  fst (check_fraud_score now id n et)
  = Z.min (contributions now n (pruned_history now (history_of id et))) 100.
Proof.
  unfold check_fraud_score, pruned_history, history_of; cbn [fst].
  set (h := filter _ (_ !!! id)).
  assert (h = filter (within (timedelta_hours 24) now)
                (default [] (et !! id) ++ [now])) as ->.
  { subst h. destruct (et !! id) as [old|] eqn:Hold; cbn [default].
    - by rewrite lookup_total_insert_eq, (lookup_total_correct _ _ _ Hold).
    - by rewrite !lookup_total_insert_eq. }
  rewrite !lookup_total_insert_eq.
  set (h := filter _ (_ ++ [now])). clearbody h.
  match goal with
  | |- context [100 <? ?c] => change c with (events_per_hour now h)
  end.
  unfold contributions, velocity_term, batch_term, behavioral_term,
    timing_term, fingerprint_term.
  generalize (events_per_hour now h); intros c.
  f_equal.
  destruct (100 <? c), (50 <? c), (80 <? n), (10 <? len h);
    try destruct (intervals h); try destruct (float_lt _ _); lia.
Qed.

Lemma velocity_term_range c : 0 <= velocity_term c <= 40.
Proof. unfold velocity_term. repeat case_match; lia. Qed.

Lemma batch_term_range n : 0 <= batch_term n <= 10.
Proof. unfold batch_term. case_match; lia. Qed.

Lemma timing_term_range h : 0 <= timing_term h <= 20.
Proof. unfold timing_term. repeat case_match; lia. Qed.

Lemma contributions_range now n h : 0 <= contributions now n h <= 70.
Proof.
  unfold contributions, behavioral_term, fingerprint_term.
  pose proof (velocity_term_range (events_per_hour now h)).
  pose proof (batch_term_range n).
  pose proof (timing_term_range h).
  lia.
Qed.

End ScorerFacts.

Section ScorerTerms.

Context {float : Type} {arith : Floating float}.

Implicit Types (now : datetime) (id : string) (n c : Z).
Implicit Types (et : gmap string (list datetime)) (h : list datetime).

Lemma intervals_length h : length (intervals h) = (length h - 1)%nat.
Proof. unfold intervals. by rewrite length_map, length_seq. Qed.

Lemma velocity_term_40 c : velocity_term c = 40 <-> 100 < c.
Proof. unfold velocity_term. repeat case_match; lia. Qed.

Lemma velocity_term_20 c : velocity_term c = 20 <-> 50 < c <= 100.
Proof. unfold velocity_term. repeat case_match; lia. Qed.

Lemma velocity_term_0 c : velocity_term c = 0 <-> c <= 50.
Proof. unfold velocity_term. repeat case_match; lia. Qed.

Lemma batch_term_10 n : batch_term n = 10 <-> 80 < n.
Proof. unfold batch_term. case_match; lia. Qed.

Lemma batch_term_0 n : batch_term n = 0 <-> n <= 80.
Proof. unfold batch_term. case_match; lia. Qed.

(** With more than 10 entries there is at least one gap, so the guard
    [if intervals:] of the source never takes its empty branch there. *)
Lemma timing_term_unfold h :
  timing_term h
  = if 10 <? len h
    then if float_lt (variance (intervals h)) float_1 then 20 else 0
    else 0.
Proof.
  unfold timing_term. destruct (Z.ltb_spec 10 (len h)) as [Hlen|]; [|done].
  destruct (intervals h) eqn:Hiv; [|done].
  apply (f_equal length) in Hiv. rewrite intervals_length in Hiv.
  unfold len in Hlen. cbn in Hiv. lia.
Qed.

Lemma timing_term_20 h :
  timing_term h = 20
  <-> 10 < len h /\ float_lt (variance (intervals h)) float_1 = true.
Proof.
  rewrite timing_term_unfold.
  destruct (Z.ltb_spec 10 (len h)); [|lia].
  destruct (float_lt _ _); [tauto|].
  split; [lia|]. by intros [_ ?].
Qed.

Lemma timing_term_0 h :
  timing_term h = 0
  <-> len h <= 10 \/ float_lt (variance (intervals h)) float_1 = false.
Proof.
  rewrite timing_term_unfold.
  destruct (Z.ltb_spec 10 (len h)); [|lia].
  destruct (float_lt _ _); [|tauto].
  split; [lia|]. intros [?|?]; [lia|done].
Qed.

(** The clamp of the source never binds: the terms sum to at most 70. *)
Lemma check_fraud_score_sum now id n et :
  fst (check_fraud_score now id n et)
  = contributions now n (snd (check_fraud_score now id n et) !!! id).
Proof.
  rewrite check_fraud_score_value, check_fraud_score_history.
  pose proof (contributions_range now n
                (pruned_history now (history_of id et))). lia.
Qed.

(** What the pruning keeps. *)
Lemma pruned_history_eq now old :
  pruned_history now old
  = filter (within (timedelta_hours 24) now) old ++ [now].
Proof.
  unfold pruned_history. rewrite filter_app. f_equal.
  rewrite filter_cons_True; [done|]. unfold within, timedelta_hours. lia.
Qed.

Lemma elem_of_pruned_history now old ts :
  ts ∈ pruned_history now old
  <-> (ts ∈ old /\ now - ts < timedelta_hours 24) \/ ts = now.
Proof.
  rewrite pruned_history_eq, elem_of_app, list_elem_of_filter.
  rewrite list_elem_of_singleton. unfold within. tauto.
Qed.

End ScorerTerms.

Section RegularHistories.

Context {float : Type} {arith : Floating float}.

Implicit Types (start step : Z) (h : list datetime).

Lemma intervals_cons h a b :
  intervals (a :: b :: h) = total_seconds (b - a) :: intervals (b :: h).
Proof.
  unfold intervals. cbn [length]. rewrite !Nat.sub_succ, !Nat.sub_0_r.
  rewrite <- cons_seq. cbn [map]. f_equal.
  rewrite <- (seq_shift _ 1), map_map. apply map_ext_in.
  intros i Hi. apply in_seq in Hi.
  destruct i as [|i]; [lia|]. by rewrite !Nat.sub_succ, !Nat.sub_0_r.
Qed.

Lemma spaced_S start step k :
  spaced start step (S k) = start :: spaced (start + step) step k.
Proof.
  unfold spaced. rewrite <- cons_seq. cbn [map]. f_equal; [lia|].
  rewrite <- seq_shift, map_map. apply map_ext. intros i. lia.
Qed.

Lemma spaced_length start step k : length (spaced start step k) = k.
Proof. unfold spaced. by rewrite length_map, length_seq. Qed.

Lemma spaced_snoc start step k :
  spaced start step k ++ [start + Z.of_nat k * step] = spaced start step (S k).
Proof. unfold spaced. by rewrite seq_S, map_app. Qed.

(** Evenly spaced events have all their gaps equal to the spacing. *)
Lemma intervals_spaced start step k :
  intervals (spaced start step k) = replicate (k - 1) (total_seconds step).
Proof.
  revert start. induction k as [|k IH]; intros start; [done|].
  destruct k as [|k]; [done|].
  rewrite spaced_S. rewrite (spaced_S (start + step)).
  rewrite intervals_cons, <- spaced_S, IH.
  cbn. rewrite Nat.sub_0_r. do 2 f_equal. lia.
Qed.

Lemma filter_all {A} (P : A -> Prop) `{forall x, Decision (P x)} (l : list A) :
  Forall P l -> filter P l = l.
Proof.
  induction 1 as [|x l Hx _ IH]; [done|].
  by rewrite filter_cons_True, IH.
Qed.

Lemma spaced_lower start step k ts :
  0 <= step -> ts ∈ spaced start step k -> start <= ts.
Proof.
  intros Hstep. unfold spaced. rewrite list_elem_of_In, in_map_iff.
  intros (i & <- & _). nia.
Qed.

(** Events that all began less than [window] ago survive the filter. *)
Lemma filter_spaced window now start step k :
  0 <= step -> now - start < window ->
  filter (within window now) (spaced start step k) = spaced start step k.
Proof.
  intros Hstep Hw. apply filter_all, Forall_forall. intros ts Hts.
  apply spaced_lower in Hts; [|done]. unfold within. lia.
Qed.

Lemma history_of_insert id h (et : gmap string (list datetime)) :
  history_of id (<[id := h]> et) = h.
Proof. unfold history_of. by rewrite lookup_insert_eq. Qed.

(** Ten events 5 s apart and an eleventh call 5 s after the tenth: the
    pruned history is the eleven events, all within the hour. *)
Lemma check_fraud_score_regular start id n et :
  fst (check_fraud_score (start + timedelta_seconds 50) id n
         (<[id := spaced start (timedelta_seconds 5) 10]> et))
  = batch_term n + timing_term (spaced start (timedelta_seconds 5) 11).
Proof.
  rewrite check_fraud_score_value, history_of_insert.
  rewrite pruned_history_eq, filter_spaced;
    [|done|unfold timedelta_seconds, timedelta_hours; lia].
  replace (start + timedelta_seconds 50)
    with (start + Z.of_nat 10 * timedelta_seconds 5)
    by (unfold timedelta_seconds; lia).
  rewrite spaced_snoc.
  unfold contributions, events_per_hour.
  rewrite filter_spaced;
    [|done|unfold timedelta_seconds, timedelta_hours; lia].
  unfold len at 1. rewrite spaced_length.
  pose proof (batch_term_range n).
  pose proof (timing_term_range (spaced start (timedelta_seconds 5) 11)).
  change (velocity_term (Z.of_nat 11)) with 0.
  unfold behavioral_term, fingerprint_term. lia.
Qed.

End RegularHistories.

Section Instances.

Implicit Types (start : datetime).

Lemma map_replicate {A B} (f : A -> B) (m : nat) (x : A) :
  map f (replicate m x) = replicate m (f x).
Proof. induction m as [|m IH]; [done|]. cbn. by rewrite IH. Qed.

(** Eleven events 5 s apart, in any arithmetic in which the operations
    the check performs on them have the results they have in binary64:
    every gap is [five], their mean is [five], every squared deviation is
    [zero], and so is the variance. *)
Lemma variance_regular_any {float : Type} {arith : Floating float}
    start (five zero : float) :
  int_truediv 5000000 1000000 = five ->
  float_truediv (float_sum (replicate 10 five)) (float_of_int 10) = five ->
  float_square (float_sub five five) = zero ->
  float_truediv (float_sum (replicate 10 zero)) (float_of_int 10) = zero ->
  variance (intervals (spaced start (timedelta_seconds 5) 11)) = zero.
Proof.
  intros Hgap Hmean Hsquare Hvariance. rewrite intervals_spaced.
  change (11 - 1)%nat with 10%nat.
  change (total_seconds (timedelta_seconds 5))
    with (int_truediv 5000000 1000000).
  rewrite Hgap. unfold variance, mean_interval, len.
  rewrite length_replicate. change (Z.of_nat 10) with 10.
  by rewrite Hmean, map_replicate, Hsquare, Hvariance.
Qed.

Lemma timing_term_regular_any {float : Type} {arith : Floating float}
    start (five zero : float) :
  int_truediv 5000000 1000000 = five ->
  float_truediv (float_sum (replicate 10 five)) (float_of_int 10) = five ->
  float_square (float_sub five five) = zero ->
  float_truediv (float_sum (replicate 10 zero)) (float_of_int 10) = zero ->
  float_lt zero float_1 = true ->
  timing_term (spaced start (timedelta_seconds 5) 11) = 20.
Proof.
  intros Hgap Hmean Hsquare Hvariance Hlt.
  rewrite timing_term_unfold. unfold len. rewrite spaced_length.
  rewrite (variance_regular_any start five zero) by done.
  by rewrite Hlt.
Qed.

Lemma variance_regular_ieee start :
  variance (arith := ieee)
    (intervals (spaced start (timedelta_seconds 5) 11)) = S754_zero false.
Proof.
  by apply (variance_regular_any (arith := ieee) start
              (S754_finite false 5629499534213120 (-50))).
Qed.

Lemma variance_regular_compensated start :
  variance (arith := ieee_compensated)
    (intervals (spaced start (timedelta_seconds 5) 11)) = S754_zero false.
Proof.
  by apply (variance_regular_any (arith := ieee_compensated) start
              (S754_finite false 5629499534213120 (-50))).
Qed.

Lemma timing_term_regular_ieee start :
  timing_term (arith := ieee) (spaced start (timedelta_seconds 5) 11) = 20.
Proof.
  rewrite timing_term_unfold. unfold len.
  rewrite spaced_length, variance_regular_ieee. reflexivity.
Qed.

Lemma timing_term_regular_compensated start :
  timing_term (arith := ieee_compensated)
    (spaced start (timedelta_seconds 5) 11) = 20.
Proof.
  by apply (timing_term_regular_any (arith := ieee_compensated) start
              (S754_finite false 5629499534213120 (-50)) (S754_zero false)).
Qed.

End Instances.

(** ** The claims about the risk scorer *)

(** C1. For every identity key, batch size and prior event-history state,
    [check_fraud_score] returns an integer in the closed interval
    [[0, 100]], and that integer is the sum of the contributions clamped
    to [[0, 100]]. *)
Theorem score_within_0_100 :
  forall (float : Type) (arith : Floating float)
         (now : datetime) (id : string) (n : Z)
         (et : gmap string (list datetime)),
    let score := fst (check_fraud_score now id n et) in
    let total :=
      contributions now n (pruned_history now (history_of id et)) in
    0 <= score <= 100 /\ score = clamp 0 100 total.
Proof.
  intros float arith now id n et. cbn zeta. rewrite check_fraud_score_value.
  pose proof (contributions_range now n
                (pruned_history now (history_of id et))).
  unfold clamp. lia.
Qed.

(** C3. The velocity bands are exact at their cutoffs and exclusive, and
    the batch term stacks on them: a count of 100 within the trailing
    hour adds 20 and not 40, 101 adds 40; 50 adds nothing, 51 adds 20; the
    batch term adds 10 exactly when the batch size exceeds 80; the score
    is the sum of the velocity band, the batch term and the timing term,
    so both fire on one call (here with 101 events and a batch of 81). *)
Theorem velocity_bands_and_batch_term :
  (forall (float : Type) (arith : Floating float)
          (now : datetime) (id : string) (n : Z)
          (et : gmap string (list datetime)),
      let r := check_fraud_score now id n et in
      let h := snd r !!! id in
      fst r
      = velocity_term (events_per_hour now h) + batch_term n + timing_term h)
  /\ (forall c : Z,
        (velocity_term c = 40 <-> 100 < c)
        /\ (velocity_term c = 20 <-> 50 < c <= 100)
        /\ (velocity_term c = 0 <-> c <= 50))
  /\ (velocity_term 100 = 20 /\ velocity_term 101 = 40
      /\ velocity_term 50 = 0 /\ velocity_term 51 = 20)
  /\ (forall n : Z,
        (batch_term n = 10 <-> 80 < n) /\ (batch_term n = 0 <-> n <= 80))
  /\ (let run (k : nat) (n : Z) :=
        fst (check_fraud_score (arith := ieee) (alternating_at k) "u1" n
               {[ "u1"%string := alternating k ]}) in
      run 99%nat 1 = 20 /\ run 100%nat 1 = 40
      /\ run 49%nat 1 = 0 /\ run 50%nat 1 = 20
      /\ run 100%nat 80 = 40 /\ run 100%nat 81 = 50
      /\ run 49%nat 81 = 10)
  /\ (let run (k : nat) (n : Z) :=
        fst (check_fraud_score (arith := exact) (alternating_at k) "u1" n
               {[ "u1"%string := alternating k ]}) in
      run 99%nat 1 = 20 /\ run 100%nat 1 = 40
      /\ run 49%nat 1 = 0 /\ run 50%nat 1 = 20
      /\ run 100%nat 80 = 40 /\ run 100%nat 81 = 50
      /\ run 49%nat 81 = 10).
Proof.
  split; [|split; [|split; [|split; [|split]]]].
  - intros float arith now id n et. cbn zeta. rewrite check_fraud_score_sum.
    unfold contributions, behavioral_term, fingerprint_term. lia.
  - intros c. split; [apply velocity_term_40|].
    split; [apply velocity_term_20 | apply velocity_term_0].
  - by vm_compute.
  - intros n. split; [apply batch_term_10 | apply batch_term_0].
  - by vm_compute.
  - by vm_compute.
Qed.

(** C4, as the code has it.  The timing-regularity term adds exactly 20
    when and only when the pruned history has more than 10 entries and the
    variance of its successive gaps in seconds, as the code computes it in
    floating point, compares strictly below [1.0]; with 10 entries or
    fewer, or a computed variance that does not compare below [1.0], it
    adds 0.  This holds whatever the floating-point operations are.
    Eleven events exactly 5 seconds apart have computed variance 0 and
    receive the 20 points: in every arithmetic in which the operations on
    5, on 50 and on 0 are exact, and so in binary64 with either
    summation.  Eleven events whose gaps alternate between 5 s and 1 s
    have computed variance 4 and receive none. *)
Theorem timing_regularity_term :
  (forall (float : Type) (arith : Floating float)
          (now : datetime) (id : string) (n : Z)
          (et : gmap string (list datetime)),
      let r := check_fraud_score now id n et in
      let h := snd r !!! id in
      fst r
      = velocity_term (events_per_hour now h) + batch_term n + timing_term h
      /\ (timing_term h = 20
          <-> 10 < len h /\ float_lt (variance (intervals h)) float_1 = true)
      /\ (timing_term h = 0
          <-> len h <= 10
              \/ float_lt (variance (intervals h)) float_1 = false))
  /\ (forall (float : Type) (arith : Floating float) (h : list datetime),
        len h <= 10 -> timing_term h = 0)
  /\ (forall (float : Type) (arith : Floating float) (start : datetime)
             (five zero : float),
        int_truediv 5000000 1000000 = five ->
        float_truediv (float_sum (replicate 10 five)) (float_of_int 10)
        = five ->
        float_square (float_sub five five) = zero ->
        float_truediv (float_sum (replicate 10 zero)) (float_of_int 10)
        = zero ->
        float_lt zero float_1 = true ->
        let h := spaced start (timedelta_seconds 5) 11 in
        variance (intervals h) = zero
        /\ timing_term h = 20
        /\ forall (id : string) (n : Z) (et : gmap string (list datetime)),
             fst (check_fraud_score (start + timedelta_seconds 50) id n
                    (<[id := spaced start (timedelta_seconds 5) 10]> et))
             = batch_term n + 20)
  /\ (forall start : datetime,
        let h := spaced start (timedelta_seconds 5) 11 in
        variance (arith := ieee) (intervals h) = S754_zero false
        /\ variance (arith := ieee_compensated) (intervals h)
           = S754_zero false
        /\ timing_term (arith := ieee) h = 20
        /\ timing_term (arith := ieee_compensated) h = 20)
  /\ (forall (start : datetime) (id : string) (n : Z)
             (et : gmap string (list datetime)),
        let et10 := <[id := spaced start (timedelta_seconds 5) 10]> et in
        let now := start + timedelta_seconds 50 in
        fst (check_fraud_score (arith := ieee) now id n et10)
        = batch_term n + 20
        /\ fst (check_fraud_score (arith := ieee_compensated) now id n et10)
           = batch_term n + 20)
  /\ (variance (arith := ieee) (intervals (alternating 11))
      = S754_finite false 4503599627370496 (-50)
      /\ variance (arith := ieee_compensated) (intervals (alternating 11))
         = S754_finite false 4503599627370496 (-50)
      /\ timing_term (arith := ieee) (alternating 11) = 0
      /\ timing_term (arith := ieee_compensated) (alternating 11) = 0).
Proof.
  split; [|split; [|split; [|split; [|split]]]].
  - intros float arith now id n et. cbn zeta. split; [|split].
    + rewrite check_fraud_score_sum.
      unfold contributions, behavioral_term, fingerprint_term. lia.
    + apply timing_term_20.
    + apply timing_term_0.
  - intros float arith h Hlen. apply timing_term_0. by left.
  - intros float arith start five zero Hgap Hmean Hsquare Hvariance Hlt.
    cbn zeta.
    split; [by apply (variance_regular_any start five zero)|].
    split; [by apply (timing_term_regular_any start five zero)|].
    intros id n et. rewrite check_fraud_score_regular.
    by rewrite (timing_term_regular_any start five zero).
  - intros start. cbn zeta.
    split; [apply variance_regular_ieee|].
    split; [apply variance_regular_compensated|].
    split; [apply timing_term_regular_ieee
           |apply timing_term_regular_compensated].
  - intros start id n et. cbn zeta. split.
    + by rewrite check_fraud_score_regular, timing_term_regular_ieee.
    + by rewrite check_fraud_score_regular, timing_term_regular_compensated.
  - by vm_compute.
Qed.

(** C4, as stated, fails.  Eleven events whose gaps alternate between
    0.3 s and 2.3 s: the mean gap is 1.3 s and every gap is exactly 1 s
    away from it, so the variance of the gaps is exactly 1, which is not
    below 1.  The code computes the mean as [0x1.4cccccccccccdp+0] (or
    [0x1.4ccccccccccccp+0] with the compensated [sum]) and the variance
    as [0x1.ffffffffffffep-1], which is [1 - 2^-52], and adds the 20
    points.  The two deviations it squares are 1 and [1 - 2^-52] in
    absolute value: the first square is 1 exactly, the second lies
    [2^-51] of a unit in the last place above a binary64 number, so
    [pow] returns the rounded square at both. *)
Lemma timing_points_at_variance_one :
  let h := uneven 11 in
  let et : gmap string (list datetime) := {[ "u1"%string := uneven 10 ]} in
  h = [0; 300000; 2600000; 2900000; 5200000; 5500000; 7800000; 8100000;
       10400000; 10700000; 13000000]
  /\ variance (arith := exact) (intervals h) = 1%Qc
  /\ float_lt (Floating := exact) (variance (arith := exact) (intervals h))
       float_1 = false
  /\ mean_interval (arith := ieee) (intervals h)
     = S754_finite false 5854679515581645 (-52)
  /\ mean_interval (arith := ieee_compensated) (intervals h)
     = S754_finite false 5854679515581644 (-52)
  /\ variance (arith := ieee) (intervals h)
     = S754_finite false 9007199254740990 (-53)
  /\ variance (arith := ieee_compensated) (intervals h)
     = S754_finite false 9007199254740990 (-53)
  /\ timing_term (arith := ieee) h = 20
  /\ timing_term (arith := ieee_compensated) h = 20
  /\ check_fraud_score (arith := ieee) 13000000 "u1" 1 et
     = (20, {[ "u1"%string := h ]})
  /\ check_fraud_score (arith := ieee_compensated) 13000000 "u1" 1 et
     = (20, {[ "u1"%string := h ]}).
Proof.
  cbn zeta.
  split; [reflexivity|].
  split; [apply Qc_is_canon; by vm_compute|].
  repeat split; by vm_compute.
Qed.


(** C9. A negative batch size does not make scoring fail and is scored
    as a batch of size zero: same score, same history afterwards. *)
Theorem negative_batch_scored_as_zero :
  forall (float : Type) (arith : Floating float)
         (now : datetime) (id : string) (n : Z)
         (et : gmap string (list datetime)),
    n < 0 ->
    check_fraud_score now id n et = check_fraud_score now id 0 et.
Proof.
  intros float arith now id n et Hn. unfold check_fraud_score.
  replace (80 <? n) with false by (symmetry; apply Z.ltb_ge; lia).
  reflexivity.
Qed.

Lemma negative_batch_scored_as_zero_witness :
  -5 < 0
  /\ check_fraud_score (arith := ieee) 7200000000 "u1" (-5)
       {[ "u1"%string := [0; 3600000000] ]}
     = check_fraud_score (arith := ieee) 7200000000 "u1" 0
         {[ "u1"%string := [0; 3600000000] ]}.
Proof.
  split; [lia|].
  apply (negative_batch_scored_as_zero binary64 ieee _ _ (-5)). lia.
Defined.

(* ===================================================================== *)
(** * Properties of the query encoding *)
(* ===================================================================== *)

Section QueryEncoding.

Import Urllib.
Local Open Scope string_scope.

Implicit Types (s t : string) (c : ascii).

Lemma string_app_cons c s t : String c s ++ t = String c (s ++ t).
Proof. reflexivity. Qed.

Lemma string_app_nil_l s : EmptyString ++ s = s.
Proof. reflexivity. Qed.

Lemma string_app_assoc s t u : (s ++ t) ++ u = s ++ t ++ u.
Proof.
  induction s as [|c s IH]; [done|]. by rewrite !string_app_cons, IH.
Qed.

Lemma string_app_nil_r s : s ++ EmptyString = s.
Proof.
  induction s as [|c s IH]; [done|]. by rewrite string_app_cons, IH.
Qed.

Lemma replace_space_app s t :
  replace_space (s ++ t) = replace_space s ++ replace_space t.
Proof.
  induction s as [|c s IH]; [done|].
  rewrite string_app_cons. cbn [replace_space].
  by rewrite string_app_cons, IH.
Qed.

Lemma all_of_app p s t : all_of p (s ++ t) = all_of p s && all_of p t.
Proof.
  induction s as [|c s IH]; [done|].
  rewrite string_app_cons. cbn [all_of]. by rewrite IH, andb_assoc.
Qed.

Lemma all_of_impl (p q : ascii -> bool) s :
  (forall c, p c = true -> q c = true) ->
  all_of p s = true -> all_of q s = true.
Proof.
  intros Hpq. induction s as [|c s IH]; [done|]. cbn [all_of].
  intros [Hc Hs]%andb_true_iff. by rewrite (Hpq c Hc), IH.
Qed.

(** One byte, when the string holds no space: [quote] with [safe=''] . *)
Lemma quote_byte_no_space c :
  Ascii.eqb " " c = false ->
  (if always_safe c || contains c EmptyString
   then String c EmptyString else percent_byte c) = quote_plus_byte c.
Proof.
  intros Hc. unfold quote_plus_byte. cbn [contains]. rewrite orb_false_r.
  destruct (always_safe c); [done|].
  by rewrite Ascii.eqb_sym, Hc.
Qed.

(** One byte, when the string holds a space: [quote] with [safe=' '],
    then the replacement of spaces. *)
Lemma quote_byte_space c :
  replace_space (if always_safe c || contains c " "
                 then String c EmptyString else percent_byte c)
  = quote_plus_byte c.
Proof. destruct c as [[] [] [] [] [] [] [] []]; reflexivity. Qed.

(** [quote_plus] works byte by byte. *)
Lemma quote_plus_cons c s :
  quote_plus (String c s) = quote_plus_byte c ++ quote_plus s.
Proof.
  assert (Hno : forall t, contains " " t = false ->
                  quote EmptyString t = replace_space (quote " " t)).
  { induction t as [|d t IH]; [done|]. cbn [contains quote].
    intros [Hd Ht]%orb_false_iff.
    rewrite replace_space_app, quote_byte_space, <- IH by done.
    by rewrite quote_byte_no_space. }
  unfold quote_plus. cbn [contains quote].
  destruct (Ascii.eqb " " c) eqn:Hc; cbn [orb negb].
  - rewrite replace_space_app, quote_byte_space. f_equal.
    destruct (contains " " s) eqn:Hs; cbn [negb]; [done|].
    symmetry. by apply Hno.
  - destruct (contains " " s) eqn:Hs; cbn [negb].
    + by rewrite replace_space_app, quote_byte_space.
    + by rewrite quote_byte_no_space.
Qed.

Lemma quote_plus_nil : quote_plus EmptyString = EmptyString.
Proof. reflexivity. Qed.

Lemma unquote_plus_byte c t :
  unquote_plus (quote_plus_byte c ++ t) = String c (unquote_plus t).
Proof. destruct c as [[] [] [] [] [] [] [] []]; reflexivity. Qed.

(** Decoding undoes the encoding: no name or value is lost or altered. *)
Lemma unquote_plus_quote_plus s : unquote_plus (quote_plus s) = s.
Proof.
  induction s as [|c s IH]; [done|].
  by rewrite quote_plus_cons, unquote_plus_byte, IH.
Qed.

Lemma query_safe_byte c : all_of query_safe (quote_plus_byte c) = true.
Proof. destruct c as [[] [] [] [] [] [] [] []]; reflexivity. Qed.

(** An encoded name or value consists of letters, digits and [_.-~+%]
    only: none of the separators [&], [=], [?], [#]. *)
Lemma quote_plus_query_safe s : all_of query_safe (quote_plus s) = true.
Proof.
  induction s as [|c s IH]; [done|].
  by rewrite quote_plus_cons, all_of_app, query_safe_byte, IH.
Qed.

Lemma occurs_in_refl s : occurs_in s s.
Proof.
  exists EmptyString, EmptyString.
  by rewrite string_app_nil_l, string_app_nil_r.
Qed.

Lemma occurs_in_app_l s t u : occurs_in s t -> occurs_in s (t ++ u).
Proof.
  intros (pre & post & ->). exists pre, (post ++ u).
  by rewrite !string_app_assoc.
Qed.

Lemma occurs_in_app_r s t u : occurs_in s t -> occurs_in s (u ++ t).
Proof.
  intros (pre & post & ->). exists (u ++ pre), post.
  by rewrite !string_app_assoc.
Qed.

Lemma occurs_in_join sep x (l : list string) :
  x ∈ l -> occurs_in x (join sep l).
Proof.
  induction l as [|y l IH]; [by intros ?%elem_of_nil|].
  intros [->|Hin]%elem_of_cons.
  - destruct l; [apply occurs_in_refl|].
    apply occurs_in_app_l, occurs_in_refl.
  - destruct l as [|z l]; [by apply elem_of_nil in Hin|].
    change (join sep (y :: z :: l)) with (y ++ sep ++ join sep (z :: l)).
    by apply occurs_in_app_r, occurs_in_app_r, IH.
Qed.

(** Every pair of the dictionary is in the query string, encoded. *)
Lemma urlencode_contains k v (query : list (string * string)) :
  (k, v) ∈ query ->
  occurs_in (quote_plus k ++ "=" ++ quote_plus v) (urlencode query).
Proof.
  intros Hin. unfold urlencode. apply occurs_in_join.
  apply list_elem_of_In, in_map_iff. exists (k, v).
  split; [done|by apply list_elem_of_In].
Qed.

Lemma contains_all_of p c s :
  all_of p s = true -> p c = false -> contains c s = false.
Proof.
  intros Hall Hc. induction s as [|d s IH]; [done|].
  cbn [all_of contains] in *. apply andb_true_iff in Hall as [Hd Hs].
  rewrite IH by done. rewrite orb_false_r.
  destruct (Ascii.eqb_spec c d) as [->|]; [congruence|done].
Qed.

Lemma quote_plus_no_amp s : contains "&" (quote_plus s) = false.
Proof.
  apply (contains_all_of query_safe); [apply quote_plus_query_safe|done].
Qed.

Lemma quote_plus_no_eq s : contains "=" (quote_plus s) = false.
Proof.
  apply (contains_all_of query_safe); [apply quote_plus_query_safe|done].
Qed.

Lemma contains_app c s t : contains c (s ++ t) = contains c s || contains c t.
Proof.
  induction s as [|d s IH]; [done|].
  rewrite string_app_cons. cbn [contains]. by rewrite IH, orb_assoc.
Qed.

Lemma split_none sep s : contains sep s = false -> split sep s = [s].
Proof.
  induction s as [|c s IH]; [done|]. cbn [contains split].
  intros [Hc Hs]%orb_false_iff. rewrite Ascii.eqb_sym, Hc. by rewrite IH.
Qed.

Lemma split_app sep s t :
  contains sep s = false ->
  split sep (s ++ String sep t) = s :: split sep t.
Proof.
  induction s as [|c s IH].
  - intros _. rewrite string_app_nil_l. cbn [split].
    by rewrite Ascii.eqb_refl.
  - cbn [contains]. intros [Hc Hs]%orb_false_iff.
    rewrite string_app_cons. cbn [split].
    rewrite Ascii.eqb_sym, Hc. by rewrite IH.
Qed.

Lemma split_join sep (l : list string) :
  l <> [] -> Forall (fun x => contains sep x = false) l ->
  split sep (join (String sep EmptyString) l) = l.
Proof.
  intros Hne Hall. induction Hall as [|x l Hx Hl IH]; [done|].
  destruct l as [|y l].
  - by apply split_none.
  - change (join (String sep EmptyString) (x :: y :: l))
      with (x ++ String sep EmptyString
              ++ join (String sep EmptyString) (y :: l)).
    rewrite string_app_cons, string_app_nil_l.
    rewrite split_app by done. by rewrite IH.
Qed.

Lemma split_once_app sep s t :
  contains sep s = false ->
  split_once sep (s ++ String sep t) = (s, Some t).
Proof.
  induction s as [|c s IH].
  - intros _. rewrite string_app_nil_l. cbn [split_once].
    by rewrite Ascii.eqb_refl.
  - cbn [contains]. intros [Hc Hs]%orb_false_iff.
    rewrite string_app_cons. cbn [split_once].
    rewrite Ascii.eqb_sym, Hc. by rewrite IH.
Qed.

Lemma string_app_not_nil s c t :
  String.eqb (s ++ String c t) EmptyString = false.
Proof. destruct s; reflexivity. Qed.

(** Reading the query string back yields the dictionary that was
    encoded: every name and value, in order, and nothing else. *)
Lemma parse_qsl_urlencode (query : list (string * string)) :
  parse_qsl (urlencode query) = query.
Proof.
  unfold parse_qsl, urlencode.
  destruct query as [|kv query]; [done|].
  rewrite split_join; [|done|].
  - generalize (kv :: query). intros l.
    induction l as [|[k v] l IH]; [done|].
    cbn [map flat_map fst snd]. rewrite IH.
    rewrite string_app_cons, string_app_nil_l.
    rewrite string_app_not_nil, split_once_app by apply quote_plus_no_eq.
    change (default EmptyString (Some (quote_plus v))) with (quote_plus v).
    by rewrite !unquote_plus_quote_plus.
  - apply Forall_forall. intros x Hx.
    apply list_elem_of_In, in_map_iff in Hx as ([k v] & <- & _).
    cbn [fst snd]. rewrite !contains_app, !quote_plus_no_amp. reflexivity.
Qed.

End QueryEncoding.

Example parse_qsl_sample :
  Urllib.parse_qsl "aff+id=data%2Fpay&ref=a%26b%3Dc~d&x=1%2B1"
  = [("aff id", "data/pay"); ("ref", "a&b=c~d"); ("x", "1+1")]%string.
Proof. reflexivity. Qed.

Example urlencode_sample :
  Urllib.urlencode
    [("aff id", "data/pay"); ("ref", "a&b=c~d"); ("x", "1+1")]%string
  = "aff+id=data%2Fpay&ref=a%26b%3Dc~d&x=1%2B1"%string.
Proof. reflexivity. Qed.

(* ===================================================================== *)
(** * Properties of the redirect ledger *)
(* ===================================================================== *)

Section Ledger.

Import Urllib Attribution.
Local Open Scope string_scope.

Implicit Types (short_id merchant_url : string).
Implicit Types (store : gmap string mapping).

(** *** What the response makes of the URL it is given *)

Lemma quote_app safe s t :
  quote safe (s ++ t) = quote safe s ++ quote safe t.
Proof.
  induction s as [|c s IH]; [done|].
  rewrite string_app_cons. cbn [quote]. by rewrite IH, string_app_assoc.
Qed.

Lemma quote_location_app s t :
  quote_location (s ++ t) = quote_location s ++ quote_location t.
Proof. apply quote_app. Qed.

Lemma string_length_app s t :
  String.length (s ++ t) = (String.length s + String.length t)%nat.
Proof.
  induction s as [|c s IH]; [done|].
  rewrite string_app_cons. cbn [String.length]. by rewrite IH.
Qed.

Lemma string_app_inv_tail s t u : s ++ u = t ++ u -> s = t.
Proof.
  revert t. induction s as [|c s IH]; intros [|d t] Heq.
  - done.
  - apply (f_equal String.length) in Heq.
    rewrite string_app_cons in Heq. cbn [String.length] in Heq.
    rewrite string_app_nil_l, string_length_app in Heq. lia.
  - apply (f_equal String.length) in Heq.
    rewrite string_app_cons in Heq. cbn [String.length] in Heq.
    rewrite string_app_nil_l, string_length_app in Heq. lia.
  - rewrite !string_app_cons in Heq. injection Heq as -> Heq.
    by rewrite (IH t Heq).
Qed.

Lemma quote_location_length s :
  (String.length s <= String.length (quote_location s))%nat.
Proof.
  induction s as [|c s IH]; [done|].
  unfold quote_location in *. cbn [quote].
  rewrite string_length_app.
  destruct (always_safe c || contains c location_safe);
    cbn [String.length percent_byte]; lia.
Qed.

(** A URL reaches the client as it is exactly when every byte of it is a
    letter, a digit or one of [_.-~:/%#?=@[]!$&'()*+,;]. *)
Lemma quote_location_fixed s :
  quote_location s = s <-> all_of location_char s = true.
Proof.
  induction s as [|c s IH]; [done|].
  unfold quote_location in *. cbn [quote all_of]. unfold location_char at 1.
  destruct (always_safe c || contains c location_safe) eqn:Hc.
  - rewrite string_app_cons, string_app_nil_l, andb_true_l, <- IH.
    split; [by intros [= ->]|by intros ->].
  - rewrite andb_false_l. split; [|done]. intros Heq.
    pose proof (quote_location_length s) as Hlen.
    apply (f_equal String.length) in Heq.
    rewrite string_length_app in Heq. unfold quote_location in Hlen.
    cbn [String.length percent_byte] in Heq. lia.
Qed.

Lemma query_safe_location_char c :
  query_safe c = true -> location_char c = true.
Proof.
  destruct c as [[] [] [] [] [] [] [] []]; vm_compute; intros H;
    solve [discriminate H | reflexivity].
Qed.

Lemma quote_plus_location_chars s :
  all_of location_char (quote_plus s) = true.
Proof.
  eapply all_of_impl; [apply query_safe_location_char|].
  apply quote_plus_query_safe.
Qed.

(** The query string [urlencode] builds holds letters, digits and
    [_.-~+%&=] only, all of which the response leaves as they are. *)
Lemma urlencode_location_chars (query : list (string * string)) :
  all_of location_char (urlencode query) = true.
Proof.
  unfold urlencode. induction query as [|[k v] query IH]; [done|].
  assert (all_of location_char (quote_plus k ++ "=" ++ quote_plus v) = true)
    as Hkv.
  { by rewrite !all_of_app, !quote_plus_location_chars. }
  destruct query as [|kv query]; [exact Hkv|].
  cbn [map join fst snd] in *.
  rewrite all_of_app, Hkv, all_of_app, IH. reflexivity.
Qed.

Lemma quote_location_minted merchant_url (query : list (string * string)) :
  quote_location (merchant_url ++ "?" ++ urlencode query)
  = quote_location merchant_url ++ "?" ++ urlencode query.
Proof.
  rewrite !quote_location_app. f_equal. f_equal.
  apply quote_location_fixed, urlencode_location_chars.
Qed.

(** *** The endpoint *)

Lemma attribution_redirect_hit short_id store m :
  store !! short_id = Some m ->
  attribution_redirect short_id store
  = ({| location := quote_location (url m); status_code := 302 |}, store).
Proof. intros H. unfold attribution_redirect. by rewrite H. Qed.

Lemma attribution_redirect_miss short_id store :
  store !! short_id = None ->
  attribution_redirect short_id store
  = ({| location :=
          "https://example.com?aff_id=datapay&ref=" ++ quote_location short_id;
        status_code := 302 |}, store).
Proof. intros H. unfold attribution_redirect. by rewrite H. Qed.

(** A request never writes to the ledger, whatever the token. *)
Lemma attribution_redirect_frame short_id store :
  snd (attribution_redirect short_id store) = store.
Proof. reflexivity. Qed.

Lemma resolve_times_hit k short_id store m :
  store !! short_id = Some m ->
  resolve_times k short_id store
  = (replicate k {| location := quote_location (url m); status_code := 302 |},
     store).
Proof.
  intros H. induction k as [|k IH]; [done|].
  cbn [resolve_times]. rewrite (attribution_redirect_hit _ _ _ H), IH.
  reflexivity.
Qed.

End Ledger.

(** ** The claims about the redirect ledger *)

(** C2, as the code has it.  Creating a mapping stores, under the token,
    the base URL followed by [?] and the query-encoded affiliate
    parameters.  A request for the token is answered with a 302 redirect
    whose [Location] is that stored URL as the response percent-quotes it:
    the query string is served as it was stored, the base URL with every
    byte that is not a URL character turned into [%XX].  So the client is
    sent to the base URL followed by [?] and the encoded parameters
    exactly when the base URL holds URL characters only.  In every case
    the [Location] contains every parameter supplied, encoded, and reading
    the query string back gives exactly the parameters supplied. *)
Theorem mint_then_resolve :
  forall (short_id merchant_url : string)
         (affiliate_params : list (string * string))
         (store : gmap string Attribution.mapping),
    let minted :=
      Attribution.create_redirect_mapping short_id merchant_url
        affiliate_params store in
    let resolved :=
      Attribution.attribution_redirect (fst minted) (snd minted) in
    let query := Urllib.urlencode affiliate_params in
    snd minted !! fst minted
    = Some {| Attribution.url := (merchant_url ++ "?" ++ query)%string;
              Attribution.created_at := "timestamp" |}
    /\ fst resolved
       = {| Attribution.location :=
              (Attribution.quote_location merchant_url ++ "?" ++ query)%string;
            Attribution.status_code := 302 |}
    /\ (Attribution.location (fst resolved)
        = (merchant_url ++ "?" ++ query)%string
        <-> Urllib.all_of Attribution.location_char merchant_url = true)
    /\ snd resolved = snd minted
    /\ Urllib.parse_qsl query = affiliate_params
    /\ (forall k v, (k, v) ∈ affiliate_params ->
          Urllib.occurs_in
            (Urllib.quote_plus k ++ "=" ++ Urllib.quote_plus v)%string
            (Attribution.location (fst resolved))
          /\ Urllib.all_of Urllib.query_safe (Urllib.quote_plus k) = true
          /\ Urllib.all_of Urllib.query_safe (Urllib.quote_plus v) = true).
Proof.
  intros short_id merchant_url affiliate_params store. cbn zeta.
  unfold Attribution.create_redirect_mapping. cbn [fst snd].
  unfold Attribution.attribution_redirect. rewrite lookup_insert_eq.
  unfold Attribution.RedirectResponse_init.
  cbn [fst snd Attribution.url Attribution.location].
  rewrite quote_location_minted.
  split; [done|]. split; [done|]. split; [|split; [done|]].
  - rewrite <- quote_location_fixed. split; [|by intros ->].
    apply string_app_inv_tail.
  - split; [apply parse_qsl_urlencode|].
    intros k v Hin. split; [|split].
    + by apply occurs_in_app_r, occurs_in_app_r, urlencode_contains.
    + apply quote_plus_query_safe.
    + apply quote_plus_query_safe.
Qed.

(** C2, as stated, fails: a base URL with a space in it is stored as it
    is, but the client is redirected to a URL in which the space has
    become [%20], which is not the base URL followed by [?] and the
    encoded parameters. *)
Lemma redirect_quotes_base_url :
  let minted :=
    Attribution.create_redirect_mapping "956e8d29"
      "https://shop.example/my item" [("aff_id", "datapay")]%string ∅ in
  let resolved :=
    Attribution.attribution_redirect (fst minted) (snd minted) in
  snd minted !! fst minted
  = Some {| Attribution.url := "https://shop.example/my item?aff_id=datapay";
            Attribution.created_at := "timestamp" |}
  /\ fst resolved
     = {| Attribution.location :=
            "https://shop.example/my%20item?aff_id=datapay";
          Attribution.status_code := 302 |}
  /\ Attribution.location (fst resolved)
     <> ("https://shop.example/my item" ++ "?"
         ++ Urllib.urlencode [("aff_id", "datapay")])%string.
Proof.
  cbn zeta. unfold Attribution.create_redirect_mapping. cbn [fst snd].
  unfold Attribution.attribution_redirect. rewrite lookup_insert_eq.
  split; [reflexivity|]. split; [reflexivity|]. discriminate.
Qed.

(** C6. A request for a token that is not in the ledger does not fail: it
    is answered with a 302 redirect to the fallback destination, the
    example.com URL carrying the token as [ref] (percent-quoted by the
    response, as every [Location] is), and the ledger is left as it
    was. *)
Theorem resolve_unknown_token :
  forall (short_id : string) (store : gmap string Attribution.mapping),
    store !! short_id = None ->
    Attribution.attribution_redirect short_id store
    = ({| Attribution.location :=
            ("https://example.com?aff_id=datapay&ref="
             ++ Attribution.quote_location short_id)%string;
          Attribution.status_code := 302 |}, store).
Proof. intros short_id store H. by apply attribution_redirect_miss. Qed.

Lemma resolve_unknown_token_witness :
  (∅ : gmap string Attribution.mapping) !! "a b"%string = None
  /\ Attribution.attribution_redirect "a b" ∅
     = ({| Attribution.location :=
             "https://example.com?aff_id=datapay&ref=a%20b"%string;
           Attribution.status_code := 302 |}, ∅).
Proof.
  split; [reflexivity|].
  apply (resolve_unknown_token "a b" ∅). reflexivity.
Defined.

(** C7, as the code has it.  [create_redirect_mapping] takes the token
    from its caller and checks nothing: it returns that token and stores
    the new mapping under it, in place of any mapping the token had; the
    mappings of all other tokens stay as they were, so a token that is not
    in the ledger replaces nothing. *)
Theorem mint_stores_under_given_token :
  forall (short_id merchant_url : string)
         (affiliate_params : list (string * string))
         (store : gmap string Attribution.mapping),
    let minted :=
      Attribution.create_redirect_mapping short_id merchant_url
        affiliate_params store in
    fst minted = short_id
    /\ snd minted !! short_id
       = Some {| Attribution.url :=
                   (merchant_url ++ "?"
                    ++ Urllib.urlencode affiliate_params)%string;
                 Attribution.created_at := "timestamp" |}
    /\ (forall t, t <> short_id -> snd minted !! t = store !! t)
    /\ (store !! short_id = None ->
        forall t m, store !! t = Some m -> snd minted !! t = Some m).
Proof.
  intros short_id merchant_url affiliate_params store. cbn zeta.
  unfold Attribution.create_redirect_mapping. cbn [fst snd].
  split; [done|]. split; [by rewrite lookup_insert_eq|].
  split; [intros t Ht; by rewrite lookup_insert_ne|].
  intros Hfresh t m Ht. rewrite lookup_insert_ne; [done|].
  intros ->. congruence.
Qed.

(** C7, as stated, fails: a second creation under a token that is live
    returns the same token and replaces the stored URL. *)
Lemma mint_replaces_live_mapping :
  let store1 :=
    snd (Attribution.create_redirect_mapping "956e8d29"
           "https://shop.example/item" [("aff_id", "datapay")]%string ∅) in
  let minted :=
    Attribution.create_redirect_mapping "956e8d29"
      "https://other.example/page" [("aff_id", "rival")]%string store1 in
  store1 !! "956e8d29"%string
  = Some {| Attribution.url := "https://shop.example/item?aff_id=datapay";
            Attribution.created_at := "timestamp" |}
  /\ fst minted = "956e8d29"%string
  /\ snd minted !! "956e8d29"%string
     = Some {| Attribution.url := "https://other.example/page?aff_id=rival";
               Attribution.created_at := "timestamp" |}
  /\ snd minted !! "956e8d29"%string <> store1 !! "956e8d29"%string.
Proof.
  cbn zeta. unfold Attribution.create_redirect_mapping. cbn [fst snd].
  rewrite insert_insert_eq, !lookup_insert_eq.
  repeat split. discriminate.
Qed.

(** C8, as the code has it.  A request for a token that is in the ledger
    leaves the whole ledger unchanged, and any number of successive
    requests for it are all answered with the same redirect: the stored
    URL as the response percent-quotes it, which is the stored URL itself
    exactly when that holds URL characters only. *)
Theorem resolve_keeps_mapping :
  forall (short_id : string) (store : gmap string Attribution.mapping)
         (m : Attribution.mapping) (k : nat),
    store !! short_id = Some m ->
    let served :=
      {| Attribution.location :=
           Attribution.quote_location (Attribution.url m);
         Attribution.status_code := 302 |} in
    Attribution.attribution_redirect short_id store = (served, store)
    /\ Attribution.resolve_times k short_id store
       = (replicate k served, store)
    /\ (Attribution.location served = Attribution.url m
        <-> Urllib.all_of Attribution.location_char (Attribution.url m)
            = true).
Proof.
  intros short_id store m k H. cbn zeta.
  split; [by apply attribution_redirect_hit|].
  split; [by apply resolve_times_hit|].
  apply quote_location_fixed.
Qed.

Lemma resolve_keeps_mapping_witness :
  let m := {| Attribution.url := "https://shop.example/item?aff_id=datapay";
              Attribution.created_at := "timestamp" |} in
  let store : gmap string Attribution.mapping := {[ "956e8d29"%string := m ]} in
  store !! "956e8d29"%string = Some m
  /\ Attribution.resolve_times 3 "956e8d29" store
     = (replicate 3 {| Attribution.location :=
                         "https://shop.example/item?aff_id=datapay";
                       Attribution.status_code := 302 |}, store).
Proof.
  cbn zeta. split; [reflexivity|].
  apply (resolve_keeps_mapping "956e8d29" _
           {| Attribution.url := "https://shop.example/item?aff_id=datapay";
              Attribution.created_at := "timestamp" |} 3).
  reflexivity.
Defined.

(** C8, as stated, fails: the ledger holds, for a base URL with a space in
    it, the URL as it was given, and every request for the token is
    answered with a [Location] in which the space has become [%20], which
    is not the stored URL. *)
Lemma resolve_quotes_stored_url :
  let store :=
    snd (Attribution.create_redirect_mapping "956e8d29"
           "https://shop.example/my item" [("aff_id", "datapay")]%string ∅) in
  let m := {| Attribution.url := "https://shop.example/my item?aff_id=datapay";
              Attribution.created_at := "timestamp" |} in
  store !! "956e8d29"%string = Some m
  /\ Attribution.resolve_times 2 "956e8d29" store
     = (replicate 2 {| Attribution.location :=
                         "https://shop.example/my%20item?aff_id=datapay";
                       Attribution.status_code := 302 |}, store)
  /\ Attribution.location
       (fst (Attribution.attribution_redirect "956e8d29" store))
     <> Attribution.url m.
Proof.
  cbn zeta. unfold Attribution.create_redirect_mapping. cbn [fst snd].
  cbn [Attribution.resolve_times].
  unfold Attribution.attribution_redirect. rewrite lookup_insert_eq.
  split; [reflexivity|]. split; [reflexivity|]. discriminate.
Qed.

(* ===================================================================== *)
(** * Properties of the click endpoint *)
(* ===================================================================== *)

Section ClickToken.

Import Hashlib Deals.

Lemma hexdigest_length (st : state) : String.length (hexdigest st) = 32%nat.
Proof. destruct st as [[[a b] c] d]. reflexivity. Qed.

Lemma prefix_hexdigest_length (st : state) :
  String.length (prefix 8 (hexdigest st)) = 8%nat.
Proof. destruct st as [[[a b] c] d]. reflexivity. Qed.

Lemma falsy_some (s : string) :
  s <> EmptyString -> falsy (Some s) = false.
Proof. intros Hs. cbn. by apply String.eqb_neq. Qed.

End ClickToken.

(** The digests of RFC 1321's test suite and of messages that fill one
    block and cross the padding boundary. *)
Example md5_empty :
  Hashlib.hexdigest (Hashlib.md5 EmptyString)
  = "d41d8cd98f00b204e9800998ecf8427e"%string.
Proof. vm_compute. reflexivity. Qed.

Example md5_abc :
  Hashlib.hexdigest (Hashlib.md5 "abc")
  = "900150983cd24fb0d6963f7d28e17f72"%string.
Proof. vm_compute. reflexivity. Qed.

Example md5_two_blocks :
  Hashlib.hexdigest
    (Hashlib.md5
       "aaaaaaaaaaaaaaaaaaaaaaaaaaaaaaaaaaaaaaaaaaaaaaaaaaaaaaaaaaaaaaaa")
  = "014842d480b571495a4a0363793f7367"%string.
Proof. vm_compute. reflexivity. Qed.

Example md5_padding_boundary :
  Hashlib.hexdigest
    (Hashlib.md5 "aaaaaaaaaaaaaaaaaaaaaaaaaaaaaaaaaaaaaaaaaaaaaaaaaaaaaaaa")
  = "3b0c8ac703f828b04c6c197006d17218"%string.
Proof. vm_compute. reflexivity. Qed.

Example click_sample :
  Deals.record_deal_click "deal_001" (Some "u1"%string)
  = Deals.Returns {| Deals.success := true; Deals.short_id := "956e8d29" |}.
Proof. vm_compute. reflexivity. Qed.

Example click_without_identity :
  Deals.record_deal_click "deal_001" None
  = Deals.HTTPException 400 "Anonymous ID required".
Proof. reflexivity. Qed.

(** C10. The click endpoint computes its token from the deal id and the
    identity key alone: for every deal id and every identity key supplied,
    it returns the first 8 hexadecimal digits of the MD5 digest of the two
    concatenated, so every click by one identity on one deal returns the
    same 8-character short id. *)
Theorem click_token_deterministic :
  forall (deal_id x_anonymous_id : string),
    x_anonymous_id <> EmptyString ->
    let token :=
      Deals.prefix 8
        (Hashlib.hexdigest (Hashlib.md5 (deal_id ++ x_anonymous_id)%string)) in
    Deals.record_deal_click deal_id (Some x_anonymous_id)
    = Deals.Returns {| Deals.success := true; Deals.short_id := token |}
    /\ String.length token = 8%nat.
Proof.
  intros deal_id x_anonymous_id Hid. cbn zeta.
  split; [|apply prefix_hexdigest_length].
  unfold Deals.record_deal_click. by rewrite falsy_some.
Qed.

Lemma click_token_deterministic_witness :
  "u1"%string <> EmptyString
  /\ Deals.record_deal_click "deal_001" (Some "u1"%string)
     = Deals.Returns {| Deals.success := true; Deals.short_id := "956e8d29" |}
  /\ String.length "956e8d29" = 8%nat.
Proof.
  split; [discriminate|].
  apply (click_token_deterministic "deal_001" "u1"). discriminate.
Defined.

(* ===================================================================== *)
(** * Further properties of the risk scorer *)
(* ===================================================================== *)

Section ScorerBounds.

Context {float : Type} {arith : Floating float}.

Implicit Types (now : datetime) (id : string) (n : Z).
Implicit Types (et : gmap string (list datetime)) (old h : list datetime).

Lemma len_app {A} (l k : list A) : len (l ++ k) = len l + len k.
Proof. unfold len. rewrite length_app. lia. Qed.

Lemma len_filter_le {A} (P : A -> Prop) `{forall x, Decision (P x)}
    (l : list A) : len (filter P l) <= len l.
Proof. unfold len. pose proof (length_filter P l). lia. Qed.

Lemma len_nonneg {A} (l : list A) : 0 <= len l.
Proof. unfold len. lia. Qed.

Lemma events_per_hour_pruned now old :
  events_per_hour now (pruned_history now old)
  = len (filter (within (timedelta_hours 1) now)
           (filter (within (timedelta_hours 24) now) old)) + 1.
Proof.
  unfold events_per_hour. rewrite pruned_history_eq, filter_app, len_app.
  rewrite filter_cons_True by (unfold within, timedelta_hours; lia).
  reflexivity.
Qed.

Lemma events_per_hour_bounds now old :
  1 <= events_per_hour now (pruned_history now old)
    <= len (pruned_history now old)
  /\ len (pruned_history now old) <= len old + 1.
Proof.
  rewrite events_per_hour_pruned, pruned_history_eq, len_app.
  change (len [now]) with 1.
  pose proof (len_filter_le (within (timedelta_hours 1) now)
                (filter (within (timedelta_hours 24) now) old)).
  pose proof (len_filter_le (within (timedelta_hours 24) now) old).
  pose proof (len_nonneg (filter (within (timedelta_hours 1) now)
                (filter (within (timedelta_hours 24) now) old))).
  lia.
Qed.

Lemma history_of_insert_ne id id' h et :
  id <> id' -> history_of id' (<[id := h]> et) = history_of id' et.
Proof. intros Hne. unfold history_of. by rewrite lookup_insert_ne. Qed.

End ScorerBounds.

(** X1. The score is one of 0, 10, 20, ..., 70: the terms that can fire
    sum to at most 70, so the final [min(score, 100)] never changes the
    sum and no call returns a score above 80. *)
Theorem score_at_most_70 :
  forall (float : Type) (arith : Floating float)
         (now : datetime) (id : string) (n : Z)
         (et : gmap string (list datetime)),
    let score := fst (check_fraud_score now id n et) in
    let total :=
      contributions now n (snd (check_fraud_score now id n et) !!! id) in
    score ∈ [0; 10; 20; 30; 40; 50; 60; 70]
    /\ score = total
    /\ ~ 80 < score.
Proof.
  intros float arith now id n et. cbn zeta.
  rewrite check_fraud_score_sum.
  set (h := snd _ !!! id).
  assert (contributions now n h ∈ [0; 10; 20; 30; 40; 50; 60; 70]) as Hin.
  { unfold contributions, velocity_term, batch_term, behavioral_term,
      fingerprint_term. rewrite timing_term_unfold.
    repeat case_match; cbn; set_solver. }
  split; [done|]. split; [done|].
  pose proof (contributions_range now n h). lia.
Qed.

(** X2. A call always records itself: the history it leaves ends with
    the call's own timestamp, is at most one entry longer than before,
    and the count of events within the hour that the velocity check uses
    is at least 1 and at most the length of that history. *)
Theorem history_ends_with_now :
  forall (float : Type) (arith : Floating float)
         (now : datetime) (id : string) (n : Z)
         (et : gmap string (list datetime)),
    let new := snd (check_fraud_score now id n et) !!! id in
    last new = Some now
    /\ len new <= len (history_of id et) + 1
    /\ 1 <= events_per_hour now new <= len new.
Proof.
  intros float arith now id n et. cbn zeta.
  rewrite check_fraud_score_history.
  pose proof (events_per_hour_bounds now (history_of id et)) as [H1 H2].
  split; [|done].
  rewrite pruned_history_eq. apply last_snoc.
Qed.

(** X3. An identity with fewer than 10 recorded events is scored on the
    batch size alone: neither the velocity bands nor the timing check can
    fire, so the score is 10 for a batch above 80 and 0 otherwise. *)
Theorem short_history_scores_batch_only :
  forall (float : Type) (arith : Floating float)
         (now : datetime) (id : string) (n : Z)
         (et : gmap string (list datetime)),
    len (history_of id et) < 10 ->
    fst (check_fraud_score now id n et) = (if 80 <? n then 10 else 0).
Proof.
  intros float arith now id n et Hshort.
  rewrite check_fraud_score_sum, check_fraud_score_history.
  pose proof (events_per_hour_bounds now (history_of id et)) as [H1 H2].
  unfold contributions, behavioral_term, fingerprint_term.
  assert (velocity_term
            (events_per_hour now (pruned_history now (history_of id et))) = 0)
    as -> by (apply velocity_term_0; lia).
  assert (timing_term (pruned_history now (history_of id et)) = 0)
    as -> by (apply timing_term_0; lia).
  unfold batch_term. lia.
Qed.

Lemma short_history_scores_batch_only_witness :
  len (history_of "u1" ({[ "u1"%string := [0; 1; 2] ]}
                        : gmap string (list datetime))) < 10
  /\ fst (check_fraud_score (arith := ieee) 3 "u1" 90
            {[ "u1"%string := [0; 1; 2] ]}) = 10.
Proof.
  split; [by vm_compute|].
  apply (short_history_scores_batch_only binary64 ieee 3 "u1" 90).
  by vm_compute.
Defined.

(** X4. An entry later than the call's [now] (the clock went back) is
    never pruned, whatever its distance from [now], and is counted among
    the events of the trailing hour. *)
Theorem future_entries_are_kept :
  forall (float : Type) (arith : Floating float)
         (now : datetime) (id : string) (n : Z)
         (et : gmap string (list datetime)) (ts : datetime),
    ts ∈ history_of id et -> now <= ts ->
    let new := snd (check_fraud_score now id n et) !!! id in
    ts ∈ new /\ ts ∈ filter (within (timedelta_hours 1) now) new.
Proof.
  intros float arith now id n et ts Hin Hfut. cbn zeta.
  rewrite check_fraud_score_history.
  assert (ts ∈ pruned_history now (history_of id et)) as Hnew.
  { apply elem_of_pruned_history. left. split; [done|].
    unfold timedelta_hours. lia. }
  split; [done|]. apply list_elem_of_filter. split; [|done].
  unfold within, timedelta_hours. lia.
Qed.

Lemma future_entries_are_kept_witness :
  let et : gmap string (list datetime) :=
    {[ "u1"%string := [900000000000] ]} in
  let new :=
    snd (check_fraud_score (arith := ieee) 0 "u1" 1 et) !!! "u1"%string in
  (900000000000 ∈ history_of "u1" et /\ 0 <= 900000000000)
  /\ 900000000000 ∈ new
  /\ 900000000000 ∈ filter (within (timedelta_hours 1) 0) new.
Proof.
  cbn zeta.
  assert (900000000000 ∈ history_of "u1"
            ({[ "u1"%string := [900000000000] ]}
             : gmap string (list datetime))) as Hin
    by (vm_compute; apply list_elem_of_here).
  split; [split; [exact Hin|lia]|].
  apply (future_entries_are_kept binary64 ieee 0 "u1" 1 _ _ Hin). lia.
Defined.

(** X5. Scoring one identity does not disturb another: two calls for
    different identities give the same two scores and the same final
    [event_tracking] in either order. *)
Theorem scoring_identities_commute :
  forall (float : Type) (arith : Floating float)
         (now1 now2 : datetime) (id1 id2 : string) (n1 n2 : Z)
         (et : gmap string (list datetime)),
    id1 <> id2 ->
    let a1 := check_fraud_score now1 id1 n1 et in
    let a2 := check_fraud_score now2 id2 n2 (snd a1) in
    let b2 := check_fraud_score now2 id2 n2 et in
    let b1 := check_fraud_score now1 id1 n1 (snd b2) in
    fst a1 = fst b1 /\ fst a2 = fst b2 /\ snd a2 = snd b1.
Proof.
  intros float arith now1 now2 id1 id2 n1 n2 et Hne. cbn zeta.
  rewrite !check_fraud_score_value, !check_fraud_score_store.
  rewrite (history_of_insert_ne id1 id2) by done.
  rewrite (history_of_insert_ne id2 id1) by done.
  split; [done|]. split; [done|].
  by apply insert_insert_ne.
Qed.

Lemma scoring_identities_commute_witness :
  let et : gmap string (list datetime) := {[ "u1"%string := [0; 1000000] ]} in
  "u1"%string <> "u2"%string
  /\ snd (check_fraud_score (arith := ieee) 3000000 "u2" 5
            (snd (check_fraud_score (arith := ieee) 2000000 "u1" 90 et)))
     = snd (check_fraud_score (arith := ieee) 2000000 "u1" 90
              (snd (check_fraud_score (arith := ieee) 3000000 "u2" 5 et))).
Proof.
  cbn zeta. split; [discriminate|].
  apply (scoring_identities_commute binary64 ieee 2000000 3000000
           "u1" "u2" 90 5). discriminate.
Defined.

Section ScorerSequences.

Import ScorerCalls.

Context {float : Type} {arith : Floating float}.

Implicit Types (now lo d : Z) (id : string) (n : Z).
Implicit Types (et : gmap string (list datetime)) (old h : list datetime).

Lemma pruned_in_hour lo now old :
  in_hour lo old -> lo <= now < lo + timedelta_hours 1 ->
  pruned_history now old = old ++ [now]
  /\ events_per_hour now (old ++ [now]) = len old + 1.
Proof.
  intros Hold Hnow. split.
  - rewrite pruned_history_eq. f_equal. apply filter_all.
    eapply Forall_impl; [exact Hold|]. intros ts Hts. cbn in Hts.
    unfold within, timedelta_hours in *. lia.
  - unfold events_per_hour. rewrite filter_all, len_app; [done|].
    apply Forall_app. split; [|apply Forall_singleton].
    + eapply Forall_impl; [exact Hold|]. intros ts Hts. cbn in Hts.
      unfold within, timedelta_hours in *. lia.
    + unfold within, timedelta_hours. lia.
Qed.

Lemma score_calls_in_hour id lo (calls : list (datetime * Z)) et :
  in_hour lo (history_of id et) -> in_hour lo (map fst calls) ->
  history_of id (snd (score_calls id calls et))
  = history_of id et ++ map fst calls
  /\ forall (k : nat) now n,
       calls !! k = Some (now, n) ->
       fst (score_calls id calls et) !! k
       = Some (velocity_term (len (history_of id et) + Z.of_nat k + 1)
               + batch_term n
               + timing_term (history_of id et
                              ++ map fst (take (S k) calls))).
Proof.
  revert et. induction calls as [|[now0 n0] calls IH]; intros et Hold Hcalls.
  - cbn [score_calls snd map]. by rewrite app_nil_r.
  - cbn [score_calls]. cbn [map fst] in Hcalls.
    apply Forall_cons in Hcalls as [Hnow0 Hrest].
    pose proof (check_fraud_score_sum now0 id n0 et) as Hsum.
    pose proof (check_fraud_score_store now0 id n0 et) as Hstore.
    rewrite check_fraud_score_history in Hsum.
    destruct (check_fraud_score now0 id n0 et) as [score et1].
    cbn [fst snd] in Hsum, Hstore. subst score et1.
    destruct (pruned_in_hour lo now0 _ Hold Hnow0) as [Hpr Hcnt].
    rewrite Hpr in *.
    specialize (IH (<[id := history_of id et ++ [now0]]> et)).
    rewrite history_of_insert in IH.
    destruct IH as [IHh IHs]; [|done|].
    { apply Forall_app. split; [done|by apply Forall_singleton]. }
    destruct (score_calls id calls _) as [scores et2].
    cbn [fst snd] in *. split.
    + rewrite IHh. cbn [map fst]. by rewrite <- app_assoc.
    + intros [|k] now n Hk.
      * cbn in Hk. injection Hk as -> ->.
        match goal with
        | |- (?x :: _) !! 0%nat = _ => transitivity (Some x); [reflexivity|]
        end.
        f_equal. unfold contributions, behavioral_term, fingerprint_term.
        rewrite Hcnt. cbn [take map fst]. rewrite take_0. cbn [map].
        change (Z.of_nat 0) with 0. rewrite !Z.add_0_r. reflexivity.
      * cbn in Hk. transitivity (scores !! k); [reflexivity|].
        rewrite (IHs k now n Hk).
        f_equal. rewrite len_app. change (len [now0]) with 1.
        rewrite <- app_assoc. cbn [take map fst app].
        replace (len (history_of id et) + 1 + Z.of_nat k + 1)
          with (len (history_of id et) + Z.of_nat (S k) + 1) by lia.
        reflexivity.
Qed.

(** Pruning a sorted history removes a prefix of it. *)
Lemma filter_sorted_is_drop window now h :
  StronglySorted Z.le h ->
  exists k : nat,
    (k <= length h)%nat /\ filter (within window now) h = drop k h.
Proof.
  induction 1 as [|a h Hs IH Ha].
  - by exists 0%nat.
  - destruct (decide (within window now a)) as [Hin|Hout].
    + exists 0%nat. split; [lia|]. cbn [drop]. apply filter_all.
      apply Forall_cons. split; [done|].
      eapply Forall_impl; [exact Ha|]. intros ts Hts. cbn in Hts.
      unfold within in *. lia.
    + destruct IH as (k & Hk & IH). exists (S k). split; [cbn; lia|].
      by rewrite filter_cons_False.
Qed.

Lemma intervals_shifted d h :
  intervals (shifted d h) = intervals h.
Proof.
  induction h as [|a h IH]; [done|].
  destruct h as [|b h]; [done|].
  change (shifted d (a :: b :: h)) with (a + d :: b + d :: shifted d h).
  change (shifted d (b :: h)) with (b + d :: shifted d h) in IH.
  rewrite !intervals_cons. f_equal; [f_equal; lia|exact IH].
Qed.

Lemma filter_shifted window now d h :
  filter (within window (now + d)) (shifted d h)
  = shifted d (filter (within window now) h).
Proof.
  induction h as [|a h IH]; [done|].
  change (shifted d (a :: h)) with (a + d :: shifted d h).
  destruct (decide (within window now a)) as [Hin|Hout].
  - rewrite !filter_cons_True; [|done|unfold within in *; lia].
    change (shifted d (a :: filter (within window now) h))
      with (a + d :: shifted d (filter (within window now) h)).
    f_equal. exact IH.
  - rewrite !filter_cons_False; [done|done|unfold within in *; lia].
Qed.

Lemma shifted_length d h : length (shifted d h) = length h.
Proof. unfold shifted. by rewrite length_map. Qed.

Lemma contributions_shifted now d n h :
  contributions (now + d) n (shifted d h) = contributions now n h.
Proof.
  unfold contributions, events_per_hour. rewrite filter_shifted.
  unfold len at 1. rewrite shifted_length.
  fold (len (filter (within (timedelta_hours 1) now) h)).
  rewrite !timing_term_unfold, intervals_shifted.
  unfold len at 2. rewrite shifted_length. reflexivity.
Qed.

Lemma pruned_history_shifted now d old :
  pruned_history (now + d) (shifted d old)
  = shifted d (pruned_history now old).
Proof.
  unfold pruned_history.
  change (shifted d old ++ [now + d]) with (shifted d old ++ shifted d [now]).
  unfold shifted at 1 2. rewrite <- map_app. apply filter_shifted.
Qed.

End ScorerSequences.

(** X6. Calls for a new identity whose timestamps all fall within one
    hour are all kept and all counted: the history afterwards is the
    timestamps in call order, and the call number [k+1] is scored with the
    velocity band of the count [k+1] (nothing up to the 50th call, 20 from
    the 51st, 40 from the 101st), its own batch term and the timing term
    of the first [k+1] timestamps. *)
Theorem calls_within_one_hour :
  forall (float : Type) (arith : Floating float)
         (id : string) (lo : datetime) (calls : list (datetime * Z))
         (et : gmap string (list datetime)),
    et !! id = None ->
    Forall (fun c => lo <= fst c < lo + timedelta_hours 1) calls ->
    let r := ScorerCalls.score_calls id calls et in
    history_of id (snd r) = map fst calls
    /\ forall (k : nat) (now : datetime) (n : Z),
         calls !! k = Some (now, n) ->
         fst r !! k
         = Some (velocity_term (Z.of_nat k + 1) + batch_term n
                 + timing_term (map fst (take (S k) calls))).
Proof.
  intros float arith id lo calls et Hnew Hcalls. cbn zeta.
  assert (history_of id et = []) as Hh by (unfold history_of; by rewrite Hnew).
  assert (Forall (fun ts => lo <= ts < lo + timedelta_hours 1)
            (map fst calls)) as Hts.
  { apply Forall_forall. intros ts Hts.
    apply list_elem_of_In, in_map_iff in Hts as (c & <- & Hc).
    rewrite Forall_forall in Hcalls. by apply Hcalls, list_elem_of_In. }
  assert (Forall (fun ts => lo <= ts < lo + timedelta_hours 1)
            (history_of id et)) as Hold by (rewrite Hh; apply Forall_nil_2).
  destruct (score_calls_in_hour id lo calls et Hold Hts) as [H1 H2].
  rewrite Hh in H1, H2. split; [done|].
  intros k now n Hk. by rewrite (H2 k now n Hk).
Qed.

Lemma calls_within_one_hour_witness :
  let calls : list (datetime * Z) := [(0, 1); (1000000, 90); (2000000, 1)] in
  ((∅ : gmap string (list datetime)) !! "u1"%string = None
   /\ Forall (fun c => 0 <= fst c < 0 + timedelta_hours 1) calls)
  /\ history_of "u1"
       (snd (ScorerCalls.score_calls (arith := ieee) "u1" calls ∅))
     = [0; 1000000; 2000000].
Proof.
  cbn zeta.
  assert (Forall (fun c : datetime * Z => 0 <= fst c < 0 + timedelta_hours 1)
            [(0, 1); (1000000, 90); (2000000, 1)]) as Hc.
  { repeat apply Forall_cons_2; [..|apply Forall_nil_2];
      cbn; unfold timedelta_hours; lia. }
  assert ((∅ : gmap string (list datetime)) !! "u1"%string = None) as Hn
    by reflexivity.
  split; [split; [exact Hn|exact Hc]|].
  apply (calls_within_one_hour binary64 ieee "u1" 0 _ ∅ Hn Hc).
Defined.

(** X7. When the recorded timestamps are in ascending order and none is
    later than [now], pruning is an eviction of the oldest entries: the
    history after the call is the old history followed by [now] with some
    leading entries removed, and it is again in ascending order with no
    entry later than [now]. *)
Theorem pruning_evicts_oldest_first :
  forall (float : Type) (arith : Floating float)
         (now : datetime) (id : string) (n : Z)
         (et : gmap string (list datetime)),
    StronglySorted Z.le (history_of id et) ->
    Forall (fun ts => ts <= now) (history_of id et) ->
    let new := snd (check_fraud_score now id n et) !!! id in
    (exists k : nat, new = drop k (history_of id et ++ [now]))
    /\ StronglySorted Z.le new
    /\ Forall (fun ts => ts <= now) new.
Proof.
  intros float arith now id n et Hsorted Hle. cbn zeta.
  rewrite check_fraud_score_history, pruned_history_eq.
  destruct (filter_sorted_is_drop (timedelta_hours 24) now _ Hsorted)
    as (k & Hk & ->).
  split; [exists k; by rewrite drop_app_le|].
  assert (Forall (fun ts => ts <= now) (drop k (history_of id et))) as Hle'.
  { rewrite <- (take_drop k (history_of id et)) in Hle.
    by apply Forall_app in Hle as [_ ?]. }
  split.
  - apply StronglySorted_app_2.
    + intros x1 x2 Hx1 ->%list_elem_of_singleton.
      rewrite Forall_forall in Hle'. by apply Hle'.
    + rewrite <- (take_drop k (history_of id et)) in Hsorted.
      by apply StronglySorted_app in Hsorted as (_ & _ & ?).
    + repeat constructor.
  - apply Forall_app. split; [done|]. apply Forall_singleton. lia.
Qed.

Lemma pruning_evicts_oldest_first_witness :
  let et : gmap string (list datetime) :=
    {[ "u1"%string := [0; 3600000000; 90000000000] ]} in
  (StronglySorted Z.le (history_of "u1" et)
   /\ Forall (fun ts => ts <= 90000000001) (history_of "u1" et))
  /\ exists k : nat,
       snd (check_fraud_score (arith := ieee) 90000000001 "u1" 1 et)
         !!! "u1"%string
       = drop k (history_of "u1" et ++ [90000000001]).
Proof.
  cbn zeta.
  assert (history_of "u1"
            ({[ "u1"%string := [0; 3600000000; 90000000000] ]}
             : gmap string (list datetime))
          = [0; 3600000000; 90000000000]) as Hh by reflexivity.
  assert (StronglySorted Z.le
            (history_of "u1"
               ({[ "u1"%string := [0; 3600000000; 90000000000] ]}
                : gmap string (list datetime)))) as Hs.
  { rewrite Hh. repeat constructor; lia. }
  assert (Forall (fun ts => ts <= 90000000001)
            (history_of "u1"
               ({[ "u1"%string := [0; 3600000000; 90000000000] ]}
                : gmap string (list datetime)))) as Hl.
  { rewrite Hh. repeat constructor; lia. }
  split; [split; [exact Hs|exact Hl]|].
  apply (pruning_evicts_oldest_first binary64 ieee 90000000001 "u1" 1 _ Hs Hl).
Defined.

(** X8. The score depends on the distances between the timestamps and
    [now], not on the timestamps themselves: moving the recorded history
    and [now] by the same amount gives the same score, and the history
    left behind is the other one moved by that amount. *)
Theorem score_invariant_under_time_shift :
  forall (float : Type) (arith : Floating float)
         (d now : datetime) (id : string) (n : Z)
         (h : list datetime) (et : gmap string (list datetime)),
    let r := check_fraud_score now id n (<[id := h]> et) in
    let r' :=
      check_fraud_score (now + d) id n (<[id := ScorerCalls.shifted d h]> et) in
    fst r' = fst r
    /\ snd r' !!! id = ScorerCalls.shifted d (snd r !!! id).
Proof.
  intros float arith d now id n h et. cbn zeta.
  rewrite !check_fraud_score_value, !check_fraud_score_history.
  rewrite !history_of_insert, pruned_history_shifted.
  by rewrite contributions_shifted.
Qed.

(* ===================================================================== *)
(** * Further properties of the redirect ledger and the click endpoint *)
(* ===================================================================== *)

Section LedgerFacts.

Import Urllib Attribution Hashlib Deals.
Local Open Scope string_scope.

Implicit Types (s t : string) (c : ascii).

Lemma urlencode_inj (q1 q2 : list (string * string)) :
  urlencode q1 = urlencode q2 -> q1 = q2.
Proof.
  intros H. apply (f_equal parse_qsl) in H.
  by rewrite !parse_qsl_urlencode in H.
Qed.

(** A string with no [+] and no [%] is its own decoding. *)
Lemma unquote_plus_plain s :
  contains "+" s = false -> contains "%" s = false -> unquote_plus s = s.
Proof.
  induction s as [|c s IH]; [done|]. cbn [contains unquote_plus].
  intros [Hp Hs]%orb_false_iff [Hq Hs']%orb_false_iff.
  rewrite (Ascii.eqb_sym c "+"), Hp, (Ascii.eqb_sym c "%"), Hq.
  by rewrite IH.
Qed.

Lemma always_safe_plain c :
  always_safe c = true ->
  Ascii.eqb "&" c = false /\ Ascii.eqb "=" c = false
  /\ Ascii.eqb "+" c = false /\ Ascii.eqb "%" c = false.
Proof.
  destruct c as [[] [] [] [] [] [] [] []]; vm_compute; intros H;
    solve [discriminate H | repeat split].
Qed.

Lemma contains_always_safe c s :
  all_of always_safe s = true ->
  (Ascii.eqb "&" c || Ascii.eqb "=" c || Ascii.eqb "+" c || Ascii.eqb "%" c)
  = true ->
  contains c s = false.
Proof.
  intros Hall Hc. induction s as [|d s IH]; [done|].
  cbn [all_of contains] in *. apply andb_true_iff in Hall as [Hd Hs].
  rewrite IH by done. rewrite orb_false_r.
  destruct (Ascii.eqb_spec c d) as [->|]; [|done].
  apply always_safe_plain in Hd as (H1 & H2 & H3 & H4).
  by rewrite H1, H2, H3, H4 in Hc.
Qed.

(** The query string of the mock redirect, read back, when the token is
    made of letters, digits and [_.-~]. *)
Lemma parse_qsl_mock_query t :
  all_of always_safe t = true ->
  parse_qsl ("aff_id=datapay&ref=" ++ t)
  = [("aff_id", "datapay"); ("ref", t)].
Proof.
  intros Ht. unfold parse_qsl.
  change ("aff_id=datapay&ref=" ++ t)
    with ("aff_id=datapay" ++ String "&" ("ref=" ++ t)).
  rewrite split_app by reflexivity.
  rewrite split_none.
  2:{ change ("ref=" ++ t)
        with (String "r" (String "e" (String "f" (String "=" t)))).
      cbn [contains]. by rewrite (contains_always_safe "&" t). }
  cbn [flat_map]. rewrite app_nil_r.
  change ("aff_id=datapay" =? EmptyString)%string with false.
  change (split_once "=" "aff_id=datapay") with ("aff_id", Some "datapay").
  change ("ref=" ++ t) with ("ref" ++ String "=" t).
  rewrite string_app_not_nil, split_once_app by reflexivity.
  change (default EmptyString (Some t)) with t.
  rewrite (unquote_plus_plain t)
    by (by apply contains_always_safe). reflexivity.
Qed.

Lemma hex_lower_is_hex (n : Z) : DealsMatching.is_hex (hex_lower n) = true.
Proof.
  unfold hex_lower. generalize (Z.to_nat n). intros m.
  do 16 (destruct m as [|m]; [reflexivity|]). reflexivity.
Qed.

Lemma hexdigest_is_hex (st : state) :
  all_of DealsMatching.is_hex (hexdigest st) = true.
Proof.
  destruct st as [[[a b] c] d]. unfold hexdigest, hex_word, hex_byte.
  rewrite !all_of_app. cbn [all_of]. by rewrite !hex_lower_is_hex.
Qed.

Lemma all_of_substring p (n : nat) s :
  all_of p s = true -> all_of p (String.substring 0 n s) = true.
Proof.
  revert s. induction n as [|n IH]; intros [|c s]; try done.
  cbn [all_of String.substring]. intros [Hc Hs]%andb_true_iff.
  by rewrite Hc, IH.
Qed.

Lemma is_hex_always_safe c :
  DealsMatching.is_hex c = true -> always_safe c = true.
Proof.
  destruct c as [[] [] [] [] [] [] [] []]; vm_compute; intros H;
    solve [discriminate H | reflexivity].
Qed.

Lemma click_token_is_hex s :
  all_of DealsMatching.is_hex (prefix 8 (hexdigest (md5 s))) = true.
Proof. apply all_of_substring, hexdigest_is_hex. Qed.

End LedgerFacts.

Section LedgerComposition.

Import Urllib Attribution.
Local Open Scope string_scope.

Lemma split_cons_form sep s : exists x l, split sep s = x :: l.
Proof.
  induction s as [|c s (x & l & IH)]; [by eexists _, _|].
  cbn [split]. destruct (Ascii.eqb c sep); [by eexists _, _|].
  rewrite IH. by eexists _, _.
Qed.

Lemma split_amp sep a b :
  split sep (a ++ String sep b) = (split sep a ++ split sep b)%list.
Proof.
  induction a as [|c a IH].
  - rewrite string_app_nil_l. cbn [split]. by rewrite Ascii.eqb_refl.
  - rewrite string_app_cons. cbn [split].
    destruct (Ascii.eqb c sep); [by rewrite IH|].
    rewrite IH. by destruct (split_cons_form sep a) as (x & l & ->).
Qed.

(** The pairs of [a&b] are those of [a] followed by those of [b]. *)
Lemma parse_qsl_amp a b :
  parse_qsl (a ++ String "&" b) = (parse_qsl a ++ parse_qsl b)%list.
Proof. unfold parse_qsl. by rewrite split_amp, flat_map_app. Qed.

Lemma parse_qsl_pair k v :
  parse_qsl (quote_plus k ++ "=" ++ quote_plus v) = [(k, v)].
Proof. apply (parse_qsl_urlencode [(k, v)]). Qed.

Lemma always_safe_location_char c :
  always_safe c = true -> Attribution.location_char c = true.
Proof. intros H. unfold Attribution.location_char. by rewrite H. Qed.

(** A token of letters, digits and [_.-~] reaches the client as it is. *)
Lemma quote_location_always_safe s :
  all_of always_safe s = true -> Attribution.quote_location s = s.
Proof.
  intros H. apply quote_location_fixed.
  by apply (all_of_impl always_safe), H; apply always_safe_location_char.
Qed.

End LedgerComposition.

(** X10. Mappings created under different tokens do not interfere: the
    ledger is the same whichever is created first, it holds for each
    token the URL that token was created with, and each token then
    redirects to its own URL, the base URL percent-quoted by the
    response and the query string as it was stored. *)
Theorem mints_under_distinct_tokens_commute :
  forall (t1 t2 url1 url2 : string) (p1 p2 : list (string * string))
         (store : gmap string Attribution.mapping),
    t1 <> t2 ->
    let s12 :=
      snd (Attribution.create_redirect_mapping t2 url2 p2
             (snd (Attribution.create_redirect_mapping t1 url1 p1 store))) in
    let s21 :=
      snd (Attribution.create_redirect_mapping t1 url1 p1
             (snd (Attribution.create_redirect_mapping t2 url2 p2 store))) in
    s12 = s21
    /\ Attribution.url <$> s12 !! t1
       = Some (url1 ++ "?" ++ Urllib.urlencode p1)%string
    /\ Attribution.url <$> s12 !! t2
       = Some (url2 ++ "?" ++ Urllib.urlencode p2)%string
    /\ Attribution.location (fst (Attribution.attribution_redirect t1 s12))
       = (Attribution.quote_location url1 ++ "?"
          ++ Urllib.urlencode p1)%string
    /\ Attribution.location (fst (Attribution.attribution_redirect t2 s12))
       = (Attribution.quote_location url2 ++ "?"
          ++ Urllib.urlencode p2)%string.
Proof.
  intros t1 t2 url1 url2 p1 p2 store Hne. cbn zeta.
  unfold Attribution.create_redirect_mapping, Attribution.attribution_redirect.
  cbn [fst snd].
  split; [by apply insert_insert_ne|].
  rewrite lookup_insert_ne, !lookup_insert_eq by done.
  unfold Attribution.RedirectResponse_init.
  cbn [Attribution.location Attribution.url fmap option_fmap option_map].
  by rewrite !quote_location_minted.
Qed.

Lemma mints_under_distinct_tokens_commute_witness :
  "aaaa1111"%string <> "bbbb2222"%string
  /\ snd (Attribution.create_redirect_mapping "bbbb2222" "https://b.example"
            [("aff", "2")]%string
            (snd (Attribution.create_redirect_mapping "aaaa1111"
                    "https://a.example" [("aff", "1")]%string ∅)))
     = snd (Attribution.create_redirect_mapping "aaaa1111" "https://a.example"
              [("aff", "1")]%string
              (snd (Attribution.create_redirect_mapping "bbbb2222"
                      "https://b.example" [("aff", "2")]%string ∅))).
Proof.
  split; [discriminate|].
  apply (mints_under_distinct_tokens_commute "aaaa1111" "bbbb2222"
           "https://a.example" "https://b.example"
           [("aff", "1")]%string [("aff", "2")]%string ∅).
  discriminate.
Defined.

(** X11. For one base URL, the URL a mapping stores determines the
    affiliate parameters it was created with: two creations that end up
    redirecting to the same URL were given the same names and values in
    the same order. *)
Theorem stored_url_determines_parameters :
  forall (t1 t2 merchant_url : string) (p1 p2 : list (string * string))
         (store1 store2 : gmap string Attribution.mapping),
    Attribution.location
      (fst (Attribution.attribution_redirect t1
              (snd (Attribution.create_redirect_mapping t1 merchant_url p1
                      store1))))
    = Attribution.location
        (fst (Attribution.attribution_redirect t2
                (snd (Attribution.create_redirect_mapping t2 merchant_url p2
                        store2)))) ->
    p1 = p2.
Proof.
  intros t1 t2 merchant_url p1 p2 store1 store2.
  unfold Attribution.create_redirect_mapping, Attribution.attribution_redirect.
  cbn [fst snd]. rewrite !lookup_insert_eq.
  unfold Attribution.RedirectResponse_init.
  cbn [Attribution.location Attribution.url].
  rewrite !quote_location_minted.
  intros H. apply String.app_inj in H. apply String.app_inj in H.
  by apply urlencode_inj.
Qed.

Lemma stored_url_determines_parameters_witness :
  Attribution.location
    (fst (Attribution.attribution_redirect "t1"
            (snd (Attribution.create_redirect_mapping "t1" "https://a.example"
                    [("aff id", "x&y")]%string ∅))))
  = Attribution.location
      (fst (Attribution.attribution_redirect "t2"
              (snd (Attribution.create_redirect_mapping "t2"
                      "https://a.example" [("aff id", "x&y")]%string ∅))))
  /\ [("aff id", "x&y")]%string = [("aff id", "x&y")]%string.
Proof.
  assert (Attribution.location
    (fst (Attribution.attribution_redirect "t1"
            (snd (Attribution.create_redirect_mapping "t1" "https://a.example"
                    [("aff id", "x&y")]%string ∅))))
  = Attribution.location
      (fst (Attribution.attribution_redirect "t2"
              (snd (Attribution.create_redirect_mapping "t2"
                      "https://a.example" [("aff id", "x&y")]%string ∅)))))
    as H by reflexivity.
  split; [exact H|].
  exact (stored_url_determines_parameters _ _ _ _ _ _ _ H).
Defined.

(** X12. The fallback URL carries the token as it came: when the token is
    made of letters, digits and [_.-~], the query string of the fallback
    reads back as [aff_id=datapay] and [ref=<token>]. *)
Theorem fallback_ref_is_the_token :
  forall (short_id : string) (store : gmap string Attribution.mapping),
    store !! short_id = None ->
    Urllib.all_of Urllib.always_safe short_id = true ->
    exists query : string,
      Attribution.location
        (fst (Attribution.attribution_redirect short_id store))
      = ("https://example.com?" ++ query)%string
      /\ Urllib.parse_qsl query
         = [("aff_id", "datapay"); ("ref", short_id)]%string.
Proof.
  intros short_id store Hnone Hsafe.
  exists ("aff_id=datapay&ref=" ++ short_id)%string.
  rewrite attribution_redirect_miss by done.
  rewrite quote_location_always_safe by done.
  split; [reflexivity|by apply parse_qsl_mock_query].
Qed.

Lemma fallback_ref_is_the_token_witness :
  ((∅ : gmap string Attribution.mapping) !! "956e8d29"%string = None
   /\ Urllib.all_of Urllib.always_safe "956e8d29" = true)
  /\ exists query : string,
       Attribution.location
         (fst (Attribution.attribution_redirect "956e8d29" ∅))
       = ("https://example.com?" ++ query)%string
       /\ Urllib.parse_qsl query
          = [("aff_id", "datapay"); ("ref", "956e8d29")]%string.
Proof.
  split; [split; reflexivity|].
  apply (fallback_ref_is_the_token "956e8d29" ∅); reflexivity.
Defined.

(** X13. The fallback URL is built from the token without encoding it,
    and the response leaves [&] and [=] as they are: a token that holds
    [&name=value] after its first part adds the pair [name], [value] to
    the query string of the redirect. *)
Theorem fallback_token_adds_parameters :
  forall (head name value : string)
         (store : gmap string Attribution.mapping),
    let short_id :=
      (head ++ "&" ++ Urllib.quote_plus name ++ "="
       ++ Urllib.quote_plus value)%string in
    store !! short_id = None ->
    Urllib.all_of Urllib.always_safe head = true ->
    exists query : string,
      Attribution.location
        (fst (Attribution.attribution_redirect short_id store))
      = ("https://example.com?" ++ query)%string
      /\ Urllib.parse_qsl query
         = [("aff_id", "datapay"); ("ref", head); (name, value)]%string.
Proof.
  intros head name value store short_id Hnone Hsafe.
  exists ("aff_id=datapay&ref=" ++ short_id)%string.
  rewrite attribution_redirect_miss by done.
  assert (Attribution.quote_location short_id = short_id) as ->.
  { apply quote_location_fixed. subst short_id.
    rewrite !all_of_app, !quote_plus_location_chars, !andb_true_r.
    by apply (all_of_impl Urllib.always_safe), Hsafe;
      apply always_safe_location_char. }
  split; [reflexivity|]. subst short_id.
  change ("aff_id=datapay&ref="
          ++ head ++ "&" ++ Urllib.quote_plus name ++ "="
          ++ Urllib.quote_plus value)%string
    with ("aff_id=datapay&ref="
          ++ (head ++ String "&" (Urllib.quote_plus name ++ "="
                                  ++ Urllib.quote_plus value)))%string.
  rewrite <- string_app_assoc, parse_qsl_amp.
  by rewrite parse_qsl_mock_query, parse_qsl_pair.
Qed.

Lemma fallback_token_adds_parameters_witness :
  ((∅ : gmap string Attribution.mapping)
     !! ("abc" ++ "&" ++ Urllib.quote_plus "aff_id" ++ "="
         ++ Urllib.quote_plus "rival")%string = None
   /\ Urllib.all_of Urllib.always_safe "abc" = true)
  /\ exists query : string,
       Attribution.location
         (fst (Attribution.attribution_redirect "abc&aff_id=rival" ∅))
       = ("https://example.com?" ++ query)%string
       /\ Urllib.parse_qsl query
          = [("aff_id", "datapay"); ("ref", "abc"); ("aff_id", "rival")]%string.
Proof.
  split; [split; reflexivity|].
  apply (fallback_token_adds_parameters "abc" "aff_id" "rival" ∅);
    reflexivity.
Defined.

(** X14. The click endpoint answers with a client error exactly when the
    identity header is absent or empty; every other call succeeds with
    [success=True] and a short id of 8 lowercase hexadecimal digits. *)
Theorem click_requires_identity :
  forall (deal_id : string) (x_anonymous_id : option string),
    (Deals.record_deal_click deal_id x_anonymous_id
     = Deals.HTTPException 400 "Anonymous ID required"
     <-> x_anonymous_id = None \/ x_anonymous_id = Some EmptyString)
    /\ (forall (status_code : Z) (detail : string),
          Deals.record_deal_click deal_id x_anonymous_id
          = Deals.HTTPException status_code detail ->
          status_code = 400)
    /\ (forall response : Deals.DealClickResponse,
          Deals.record_deal_click deal_id x_anonymous_id
          = Deals.Returns response ->
          Deals.success response = true
          /\ String.length (Deals.short_id response) = 8%nat
          /\ Urllib.all_of DealsMatching.is_hex (Deals.short_id response)
             = true).
Proof.
  intros deal_id x_anonymous_id. unfold Deals.record_deal_click.
  destruct x_anonymous_id as [[|c s]|]; cbn [Deals.falsy String.eqb].
  - split; [split; [by right|done]|]. split; [congruence|done].
  - split; [split; [done|by intros [|]]|]. split; [done|].
    intros response [= <-]. cbn [Deals.success Deals.short_id].
    split; [done|].
    split; [apply prefix_hexdigest_length|apply click_token_is_hex].
  - split; [split; [by left|done]|]. split; [congruence|done].
Qed.

(** X15. The token of a click is computed from the deal id and the
    identity key written one after the other with nothing in between, so
    two clicks whose deal id and identity key concatenate to the same
    text receive the same token, even for different deals and different
    identities. *)
Theorem click_token_depends_on_concatenation :
  forall (deal1 id1 deal2 id2 : string),
    id1 <> EmptyString -> id2 <> EmptyString ->
    (deal1 ++ id1)%string = (deal2 ++ id2)%string ->
    Deals.record_deal_click deal1 (Some id1)
    = Deals.record_deal_click deal2 (Some id2).
Proof.
  intros deal1 id1 deal2 id2 H1 H2 Heq. unfold Deals.record_deal_click.
  rewrite !falsy_some by done.
  change (default EmptyString (Some id1)) with id1.
  change (default EmptyString (Some id2)) with id2.
  by rewrite Heq.
Qed.

Lemma click_token_depends_on_concatenation_witness :
  ("1u7"%string <> EmptyString /\ "u7"%string <> EmptyString
   /\ ("deal_00" ++ "1u7")%string = ("deal_001" ++ "u7")%string)
  /\ Deals.record_deal_click "deal_00" (Some "1u7"%string)
     = Deals.record_deal_click "deal_001" (Some "u7"%string).
Proof.
  split; [split; [discriminate|split; [discriminate|reflexivity]]|].
  apply (click_token_depends_on_concatenation "deal_00" "1u7" "deal_001" "u7");
    [discriminate|discriminate|reflexivity].
Defined.

(** X16. A click followed by the redirect: the click endpoint returns a
    token and stores nothing, so when no mapping was created under that
    token the redirect goes to the fallback URL, whose [ref] parameter is
    the token, and the ledger is unchanged. *)
Theorem click_then_redirect_reaches_fallback :
  forall (deal_id x_anonymous_id : string)
         (store : gmap string Attribution.mapping),
    x_anonymous_id <> EmptyString ->
    exists token : string,
      Deals.record_deal_click deal_id (Some x_anonymous_id)
      = Deals.Returns {| Deals.success := true; Deals.short_id := token |}
      /\ (store !! token = None ->
          Attribution.attribution_redirect token store
          = ({| Attribution.location :=
                  ("https://example.com?aff_id=datapay&ref=" ++ token)%string;
                Attribution.status_code := 302 |}, store)
          /\ Urllib.parse_qsl ("aff_id=datapay&ref=" ++ token)%string
             = [("aff_id", "datapay"); ("ref", token)]%string).
Proof.
  intros deal_id x_anonymous_id store Hid. eexists. split.
  - unfold Deals.record_deal_click. by rewrite falsy_some.
  - intros Hnone.
    match goal with
    | |- context [Urllib.parse_qsl (_ ++ ?t)%string] =>
        assert (Urllib.all_of Urllib.always_safe t = true) as Hsafe
    end.
    { eapply all_of_impl; [apply is_hex_always_safe|apply click_token_is_hex]. }
    split; [|by apply parse_qsl_mock_query].
    rewrite attribution_redirect_miss by done.
    by rewrite quote_location_always_safe.
Qed.

Lemma click_then_redirect_reaches_fallback_witness :
  "u1"%string <> EmptyString
  /\ exists token : string,
       Deals.record_deal_click "deal_001" (Some "u1"%string)
       = Deals.Returns {| Deals.success := true; Deals.short_id := token |}
       /\ ((∅ : gmap string Attribution.mapping) !! token = None ->
           Attribution.attribution_redirect token ∅
           = ({| Attribution.location :=
                   ("https://example.com?aff_id=datapay&ref=" ++ token)%string;
                 Attribution.status_code := 302 |}, ∅)
           /\ Urllib.parse_qsl ("aff_id=datapay&ref=" ++ token)%string
              = [("aff_id", "datapay"); ("ref", token)]%string).
Proof.
  split; [discriminate|].
  apply (click_then_redirect_reaches_fallback "deal_001" "u1" ∅).
  discriminate.
Defined.

(* ===================================================================== *)
(** * Properties of the deal endpoints *)
(* ===================================================================== *)

Section Matching.

Import Urllib Hashlib Deals DealsMatching.
Local Open Scope string_scope.

Variable isoformat : datetime -> string.
Variable epoch_millis : datetime -> Z.
Variable clock : nat -> datetime.

Implicit Types (ms : list DealMatch) (reads : nat) (signal : Signal).

Lemma generate_short_id_form product_slug user_id now :
  String.length (generate_short_id isoformat product_slug user_id now)
  = 12%nat
  /\ all_of is_hex (generate_short_id isoformat product_slug user_id now)
     = true.
Proof.
  unfold generate_short_id. split.
  - destruct (md5 _) as [[[a b] c] d]. reflexivity.
  - apply all_of_substring, hexdigest_is_hex.
Qed.

Lemma product_short_redirect t d m p o disc img slug user now kws com :
  short_redirect
    (product t d m p o disc img
       (generate_short_id isoformat slug user now) kws com).
Proof.
  eexists. split; [reflexivity|]. apply generate_short_id_form.
Qed.

(** What a signal adds does not depend on the matches found before. *)
Lemma match_signal_app user ms reads signal :
  match_signal isoformat clock user (ms, reads) signal
  = ((ms ++ fst (match_signal isoformat clock user ([], reads) signal))%list,
     snd (match_signal isoformat clock user ([], reads) signal)).
Proof.
  unfold match_signal. repeat case_match; cbn [fst snd];
    by rewrite ?app_nil_l, ?app_nil_r.
Qed.

Lemma match_signal_titles user reads signal :
  map title (fst (match_signal isoformat clock user ([], reads) signal))
  = titles_for isoformat clock signal.
Proof.
  unfold titles_for, match_signal. by repeat case_match.
Qed.

Lemma match_signal_redirects user reads signal :
  Forall short_redirect
    (fst (match_signal isoformat clock user ([], reads) signal)).
Proof.
  unfold match_signal. repeat case_match; cbn [fst app];
    repeat apply Forall_cons_2; try apply Forall_nil_2;
    apply product_short_redirect.
Qed.

Lemma fold_match_signal user (sigs : list Signal) ms reads :
  map title
    (fst (fold_left (match_signal isoformat clock user) sigs (ms, reads)))
  = (map title ms ++ flat_map (titles_for isoformat clock) sigs)%list
  /\ (Forall short_redirect ms ->
      Forall short_redirect
        (fst (fold_left (match_signal isoformat clock user) sigs
                (ms, reads)))).
Proof.
  revert ms reads. induction sigs as [|s sigs IH]; intros ms reads.
  - cbn [fold_left fst flat_map]. by rewrite app_nil_r.
  - cbn [fold_left flat_map]. rewrite match_signal_app.
    destruct (IH (ms ++ fst (match_signal isoformat clock user ([], reads)
                               s))%list
                (snd (match_signal isoformat clock user ([], reads) s)))
      as [IH1 IH2].
    split.
    + rewrite IH1, map_app, match_signal_titles. by rewrite <- app_assoc.
    + intros Hms. apply IH2, Forall_app. split; [done|].
      apply match_signal_redirects.
Qed.

Lemma titles_for_unknown signal :
  ~ known_category (category signal) \/ entities signal = [] ->
  titles_for isoformat clock signal = [].
Proof.
  unfold titles_for, match_signal, known_category. intros [Hc|He].
  - destruct (String.eqb_spec (category signal) "electronics") as [Heq|].
    { exfalso. apply Hc. rewrite Heq. apply list_elem_of_In. cbn. tauto. }
    destruct (String.eqb_spec (category signal) "fitness") as [Heq|].
    { exfalso. apply Hc. rewrite Heq. apply list_elem_of_In. cbn. tauto. }
    destruct (String.eqb_spec (category signal) "general") as [Heq|].
    { exfalso. apply Hc. rewrite Heq. apply list_elem_of_In. cbn. tauto. }
    reflexivity.
  - rewrite He. cbn [any_in existsb]. by rewrite !andb_false_r.
Qed.

End Matching.

Section MatchingFacts.

Import Urllib Hashlib Deals DealsMatching.
Local Open Scope string_scope.

Variable isoformat : datetime -> string.
Variable epoch_millis : datetime -> Z.
Variable clock : nat -> datetime.

Implicit Types (ms : list DealMatch) (reads : nat) (signal : Signal).

Lemma match_signal_unknown user ms reads signal :
  ~ known_category (category signal) \/ entities signal = [] ->
  match_signal isoformat clock user (ms, reads) signal = (ms, reads).
Proof.
  intros H. pose proof (titles_for_unknown isoformat clock signal H) as Ht.
  unfold titles_for in Ht. revert Ht. unfold match_signal.
  repeat case_match; cbn [fst map]; intros Ht; try discriminate Ht.
  reflexivity.
Qed.

Lemma fold_match_signal_unknown user (sigs : list Signal) ms reads :
  Forall (fun s => ~ known_category (category s) \/ entities s = []) sigs ->
  fold_left (match_signal isoformat clock user) sigs (ms, reads)
  = (ms, reads).
Proof.
  induction 1 as [|s sigs Hs _ IH]; [done|].
  cbn [fold_left]. by rewrite match_signal_unknown.
Qed.

Lemma fold_match_signal_prefix user (sigs : list Signal) ms reads :
  exists more,
    fst (fold_left (match_signal isoformat clock user) sigs (ms, reads))
    = (ms ++ more)%list.
Proof.
  revert ms reads. induction sigs as [|s sigs IH]; intros ms reads.
  - exists []. cbn. by rewrite app_nil_r.
  - cbn [fold_left]. rewrite match_signal_app.
    destruct (IH (ms ++ fst (match_signal isoformat clock user ([], reads)
                               s))%list
                (snd (match_signal isoformat clock user ([], reads) s)))
      as [more ->].
    eexists. by rewrite <- app_assoc.
Qed.

Lemma any_in_true (known keywords : list string) :
  (exists kw, kw ∈ keywords /\ kw ∈ known) -> any_in known keywords = true.
Proof.
  intros (kw & Hk & Hn). unfold any_in. apply existsb_exists.
  exists kw. split; [by apply list_elem_of_In|by apply bool_decide_eq_true].
Qed.

Lemma two_deal_signal_length user signal :
  two_deal_signal signal ->
  length (fst (match_signal isoformat clock user ([], O) signal)) = 2%nat.
Proof.
  unfold match_signal. intros [[Hc Hk]|[Hc Hk]]; rewrite Hc.
  - by rewrite (any_in_true _ _ Hk).
  - by rewrite (any_in_true _ _ Hk).
Qed.

End MatchingFacts.

(** X17. Whatever the payload, [match_deals] succeeds, awards 10 points
    and returns at most two matches: the first two deals that the signals
    produce, taken in the order of the signals. *)
Theorem match_deals_returns_first_two :
  forall (isoformat : datetime -> string) (epoch_millis : datetime -> Z)
         (clock : nat -> datetime)
         (payload : DealsMatching.SignalPayload)
         (x_anonymous_id : option string),
    let r :=
      DealsMatching.match_deals isoformat epoch_millis clock payload
        x_anonymous_id in
    let found := DealsMatching.matches (DealsMatching.data r) in
    DealsMatching.success r = true
    /\ DealsMatching.pointsEarned (DealsMatching.data r) = 10
    /\ (length found <= 2)%nat
    /\ map DealsMatching.title found
       = take 2 (flat_map (DealsMatching.titles_for isoformat clock)
                   (DealsMatching.signals payload)).
Proof.
  intros isoformat epoch_millis clock payload x_anonymous_id. cbn zeta.
  unfold DealsMatching.match_deals.
  pose proof (fold_match_signal isoformat clock
                (DealsMatching.anonymousId payload)
                (DealsMatching.signals payload) [] O) as [Ht _].
  destruct (fold_left _ _ _) as [ms reads]. cbn [fst] in Ht.
  cbn [DealsMatching.success DealsMatching.data DealsMatching.pointsEarned
       DealsMatching.matches].
  split; [done|]. split; [done|].
  split; [rewrite length_take; lia|].
  cbn [map app] in Ht. rewrite <- Ht. symmetry. apply firstn_map.
Qed.

(** X18. Every match returned by [match_deals] redirects through the
    attribution route: its [redirectUrl] is [/r/] followed by 12
    lowercase hexadecimal digits. *)
Theorem match_deals_redirects_are_short_ids :
  forall (isoformat : datetime -> string) (epoch_millis : datetime -> Z)
         (clock : nat -> datetime)
         (payload : DealsMatching.SignalPayload)
         (x_anonymous_id : option string),
    Forall DealsMatching.short_redirect
      (DealsMatching.matches
         (DealsMatching.data
            (DealsMatching.match_deals isoformat epoch_millis clock payload
               x_anonymous_id))).
Proof.
  intros isoformat epoch_millis clock payload x_anonymous_id.
  unfold DealsMatching.match_deals.
  pose proof (fold_match_signal isoformat clock
                (DealsMatching.anonymousId payload)
                (DealsMatching.signals payload) [] O) as [_ Hr].
  destruct (fold_left _ _ _) as [ms reads]. cbn [fst] in Hr.
  cbn [DealsMatching.data DealsMatching.matches].
  apply Forall_take, Hr, Forall_nil_2.
Qed.

(** X19. When every signal either has a category other than electronics,
    fitness and general or lists no keyword, [match_deals] returns no
    match; the 10 points are awarded all the same, and the clock is read
    once, for the timestamp of the response. *)
Theorem unmatched_signals_give_no_deals :
  forall (isoformat : datetime -> string) (epoch_millis : datetime -> Z)
         (clock : nat -> datetime)
         (payload : DealsMatching.SignalPayload)
         (x_anonymous_id : option string),
    Forall (fun s =>
              ~ DealsMatching.known_category (DealsMatching.category s)
              \/ DealsMatching.entities s = [])
           (DealsMatching.signals payload) ->
    DealsMatching.match_deals isoformat epoch_millis clock payload
      x_anonymous_id
    = {| DealsMatching.success := true;
         DealsMatching.data :=
           {| DealsMatching.matches := [];
              DealsMatching.pointsEarned := 10 |};
         DealsMatching.response_timestamp := epoch_millis (clock O) |}.
Proof.
  intros isoformat epoch_millis clock payload x_anonymous_id Hall.
  unfold DealsMatching.match_deals.
  by rewrite fold_match_signal_unknown.
Qed.

Lemma unmatched_signals_give_no_deals_witness :
  let payload :=
    {| DealsMatching.anonymousId := "u1";
       DealsMatching.signals :=
         [ {| DealsMatching.category := "travel";
              DealsMatching.entities := ["audio"]%string;
              DealsMatching.intentScore := S754_zero false;
              DealsMatching.pageCount := 3;
              DealsMatching.timeWindow := "7d" |};
           {| DealsMatching.category := "electronics";
              DealsMatching.entities := [];
              DealsMatching.intentScore := S754_zero false;
              DealsMatching.pageCount := 1;
              DealsMatching.timeWindow := "7d" |} ];
       DealsMatching.timestamp := 0 |} in
  Forall (fun s =>
            ~ DealsMatching.known_category (DealsMatching.category s)
            \/ DealsMatching.entities s = [])
         (DealsMatching.signals payload)
  /\ DealsMatching.matches
       (DealsMatching.data
          (DealsMatching.match_deals (fun _ => "2024-01-01T00:00:00"%string)
             (fun ts => ts / 1000) (fun _ => 0) payload None))
     = [].
Proof.
  cbn zeta.
  match goal with |- ?A /\ _ => assert A as Hall end.
  { apply Forall_cons_2; [|apply Forall_cons_2; [|apply Forall_nil_2]].
    - left. unfold DealsMatching.known_category. cbn.
      intros H%list_elem_of_In. cbn in H.
      destruct H as [H|[H|[H|[]]]]; discriminate H.
    - by right. }
  split; [exact Hall|].
  by rewrite (unmatched_signals_give_no_deals _ _ _ _ None Hall).
Defined.

(** X20. Once the first signal produces two deals (an electronics or a
    general signal naming a known keyword), the signals after it have no
    effect on the matches returned, redirect tokens included. *)
Theorem first_two_deals_shadow_later_signals :
  forall (isoformat : datetime -> string) (epoch_millis : datetime -> Z)
         (clock : nat -> datetime)
         (anonymousId : string) (timestamp : Z)
         (first : DealsMatching.Signal) (later : list DealsMatching.Signal)
         (x_anonymous_id : option string),
    DealsMatching.two_deal_signal first ->
    let found (signals : list DealsMatching.Signal) :=
      DealsMatching.matches
        (DealsMatching.data
           (DealsMatching.match_deals isoformat epoch_millis clock
              {| DealsMatching.anonymousId := anonymousId;
                 DealsMatching.signals := signals;
                 DealsMatching.timestamp := timestamp |}
              x_anonymous_id)) in
    found (first :: later) = found [first] /\ length (found [first]) = 2%nat.
Proof.
  intros isoformat epoch_millis clock anonymousId timestamp first later
    x_anonymous_id Hfirst. cbn zeta.
  unfold DealsMatching.match_deals.
  cbn [DealsMatching.anonymousId DealsMatching.signals fold_left].
  pose proof (two_deal_signal_length isoformat clock anonymousId first Hfirst)
    as Hlen.
  destruct (DealsMatching.match_signal isoformat clock anonymousId ([], O)
              first) as [ms2 reads2].
  cbn [fst] in Hlen.
  destruct (fold_match_signal_prefix isoformat clock anonymousId later
              ms2 reads2) as [more Hmore].
  destruct (fold_left _ later _) as [ms reads]. cbn [fst] in Hmore.
  subst ms. cbn [DealsMatching.data DealsMatching.matches].
  rewrite take_app_le, !firstn_all2 by lia. done.
Qed.

Lemma first_two_deals_shadow_later_signals_witness :
  let audio :=
    {| DealsMatching.category := "electronics";
       DealsMatching.entities := ["laptop"; "audio"]%string;
       DealsMatching.intentScore := S754_zero false;
       DealsMatching.pageCount := 4;
       DealsMatching.timeWindow := "7d" |} in
  let shoes :=
    {| DealsMatching.category := "fitness";
       DealsMatching.entities := ["shoes"]%string;
       DealsMatching.intentScore := S754_zero false;
       DealsMatching.pageCount := 2;
       DealsMatching.timeWindow := "7d" |} in
  let found (signals : list DealsMatching.Signal) :=
    DealsMatching.matches
      (DealsMatching.data
         (DealsMatching.match_deals (fun _ => "2024-01-01T00:00:00"%string)
            (fun ts => ts / 1000) (fun k => Z.of_nat k)
            {| DealsMatching.anonymousId := "u1";
               DealsMatching.signals := signals;
               DealsMatching.timestamp := 0 |}
            None)) in
  DealsMatching.two_deal_signal audio
  /\ found [audio; shoes] = found [audio]
  /\ length (found [audio]) = 2%nat.
Proof.
  cbn zeta.
  match goal with |- ?A /\ _ => assert A as Hfirst end.
  { left. split; [reflexivity|]. exists "audio"%string.
    split; apply list_elem_of_In; cbn; tauto. }
  split; [exact Hfirst|].
  apply (first_two_deals_shadow_later_signals
           (fun _ => "2024-01-01T00:00:00"%string) (fun ts => ts / 1000)
           (fun k => Z.of_nat k) "u1" 0 _ _ None Hfirst).
Defined.

(** The literal [0.7] of the catalogue is the binary64 number
    [0x1.6666666666666p-1]. *)
Example literal_0_7 :
  DealsListing.literal 7 10 = S754_finite false 6305039478318694 (-53).
Proof. vm_compute. reflexivity. Qed.

(** X21. [get_deals] returns the catalogue entries whose minimum intent
    score the request reaches, the bound included: [total_count] is the
    number of deals returned, the requested category is echoed whether or
    not anything matched, the mock deal is returned exactly when
    [intent_score >= 0.7], and a NaN score matches nothing. *)
Theorem get_deals_filters_by_intent :
  forall (now_ms : Z) (domain category : string)
         (intent_score : binary64) (x_anonymous_id : option string),
    let r :=
      DealsListing.get_deals now_ms domain category intent_score
        x_anonymous_id in
    let at_least_0_7 := SFleb (DealsListing.literal 7 10) intent_score in
    DealsListing.total_count r = len (DealsListing.deals r)
    /\ DealsListing.matched_categories r = [category]
    /\ DealsListing.deals r
       = (if at_least_0_7 then DealsListing.mock_deals else [])
    /\ Forall (fun d =>
                 SFleb (DealsListing.min_intent_score d) intent_score = true)
              (DealsListing.deals r)
    /\ DealsListing.deals
         (DealsListing.get_deals now_ms domain category
            (DealsListing.literal 7 10) x_anonymous_id)
       = DealsListing.mock_deals
    /\ DealsListing.deals
         (DealsListing.get_deals now_ms domain category S754_nan
            x_anonymous_id)
       = [].
Proof.
  intros now_ms domain category intent_score x_anonymous_id. cbn zeta.
  unfold DealsListing.get_deals.
  cbn [DealsListing.total_count DealsListing.deals
       DealsListing.matched_categories].
  split; [done|]. split; [done|].
  split; [|split; [|split; by vm_compute]].
  - unfold DealsListing.mock_deals, DealsListing.float_ge.
    cbn [List.filter DealsListing.min_intent_score].
    by destruct (SFleb (DealsListing.literal 7 10) intent_score).
  - apply Forall_forall. intros d Hd.
    apply list_elem_of_In, filter_In in Hd as [_ Hd]. exact Hd.
Qed.

(* ===================================================================== *)
(** * Properties of the URL a mapping stores *)
(* ===================================================================== *)

Section StoredUrls.

Import Urllib Attribution StoredUrl.
Local Open Scope string_scope.

Implicit Types (s t : string) (c : ascii).

Lemma count_app c s t : count c (s ++ t) = (count c s + count c t)%nat.
Proof.
  induction s as [|d s IH]; [done|].
  rewrite string_app_cons. cbn [count]. rewrite IH. lia.
Qed.

Lemma count_not_contained c s : contains c s = false -> count c s = O.
Proof.
  induction s as [|d s IH]; [done|]. cbn [contains count].
  intros [-> Hs]%orb_false_iff. by rewrite IH.
Qed.

Lemma join_cons2 sep x y (l : list string) :
  join sep (x :: y :: l) = x ++ sep ++ join sep (y :: l).
Proof. reflexivity. Qed.

Lemma quote_plus_no_question s : contains "?" (quote_plus s) = false.
Proof.
  apply (contains_all_of query_safe); [apply quote_plus_query_safe|done].
Qed.

Lemma urlencode_no_question (query : list (string * string)) :
  count "?" (urlencode query) = O.
Proof.
  unfold urlencode. induction query as [|[k v] query IH]; [done|].
  cbn [map fst snd].
  assert (count "?" (quote_plus k ++ "=" ++ quote_plus v) = O) as Hkv.
  { rewrite !count_app.
    rewrite (count_not_contained "?" (quote_plus k))
      by apply quote_plus_no_question.
    rewrite (count_not_contained "?" (quote_plus v))
      by apply quote_plus_no_question.
    reflexivity. }
  destruct query as [|kv query]; [exact Hkv|].
  cbn [map] in *. rewrite join_cons2, count_app, Hkv, count_app, IH.
  reflexivity.
Qed.

(** The response quotes no [?] and no quoted byte holds one. *)
Lemma count_quote_location s :
  count "?" (Attribution.quote_location s) = count "?" s.
Proof.
  induction s as [|c s IH]; [done|].
  unfold Attribution.quote_location in *. cbn [quote].
  rewrite count_app, IH. cbn [count]. f_equal.
  destruct c as [[] [] [] [] [] [] [] []]; reflexivity.
Qed.

Lemma quote_plus_plain s : plain s = true -> quote_plus s = s.
Proof.
  unfold plain. induction s as [|c s IH]; [done|]. cbn [all_of].
  intros [Hc Hs]%andb_true_iff.
  rewrite quote_plus_cons, IH by done.
  unfold quote_plus_byte. by rewrite Hc.
Qed.

Lemma urlencode_plain (query : list (string * string)) :
  Forall (fun kv => plain (fst kv) = true /\ plain (snd kv) = true) query ->
  urlencode query = unescaped query.
Proof.
  unfold urlencode, unescaped. intros Hall. f_equal.
  apply map_ext_in. intros kv Hin. rewrite Forall_forall in Hall.
  destruct (Hall kv) as [Hk Hv]; [by apply list_elem_of_In|].
  by rewrite !quote_plus_plain.
Qed.

End StoredUrls.

(** X22. [create_redirect_mapping] puts a [?] between the base URL and
    the parameters without looking at either: the URL it stores in the
    ledger holds exactly one more [?] than the base URL (a base URL that
    has a query keeps it and gets a second [?]), and with no parameters
    it is the base URL followed by a bare [?].  The response leaves every
    [?] as it is and adds none, so the same count holds of the [Location]
    the client receives. *)
Theorem mint_adds_one_question_mark :
  forall (short_id merchant_url : string)
         (affiliate_params : list (string * string))
         (store : gmap string Attribution.mapping),
    let ledger (params : list (string * string)) :=
      snd (Attribution.create_redirect_mapping short_id merchant_url
             params store) in
    let stored (params : list (string * string)) :=
      Attribution.url <$> ledger params !! short_id in
    (exists full_url : string,
       stored affiliate_params = Some full_url
       /\ StoredUrl.count "?" full_url = S (StoredUrl.count "?" merchant_url))
    /\ stored [] = Some (merchant_url ++ "?")%string
    /\ StoredUrl.count "?"
         (Attribution.location
            (fst (Attribution.attribution_redirect short_id
                    (ledger affiliate_params))))
       = S (StoredUrl.count "?" merchant_url).
Proof.
  intros short_id merchant_url affiliate_params store. cbn zeta.
  unfold Attribution.create_redirect_mapping, Attribution.attribution_redirect.
  cbn [fst snd]. rewrite !lookup_insert_eq.
  unfold Attribution.RedirectResponse_init.
  cbn [Attribution.location Attribution.url fmap option_fmap option_map].
  assert (forall base : string,
            StoredUrl.count "?"
              (base ++ "?" ++ Urllib.urlencode affiliate_params)%string
            = S (StoredUrl.count "?" base)) as Hcount.
  { intros base. rewrite count_app.
    change ("?" ++ ?x)%string with (String "?" x).
    cbn [StoredUrl.count]. rewrite urlencode_no_question.
    change (Ascii.eqb "?" "?") with true. cbv iota. lia. }
  split; [eexists; split; [reflexivity|apply Hcount]|].
  split; [reflexivity|].
  by rewrite quote_location_minted, Hcount, count_quote_location.
Qed.

(** X23. Parameters whose names and values are made of letters, digits
    and [_.-~] are stored as they are: the URL in the ledger is the base
    URL, [?], and the pairs written [name=value] and joined by [&]. *)
Theorem plain_parameters_are_stored_verbatim :
  forall (short_id merchant_url : string)
         (affiliate_params : list (string * string))
         (store : gmap string Attribution.mapping),
    Forall (fun kv => StoredUrl.plain (fst kv) = true
                      /\ StoredUrl.plain (snd kv) = true)
           affiliate_params ->
    snd (Attribution.create_redirect_mapping short_id merchant_url
           affiliate_params store) !! short_id
    = Some {| Attribution.url :=
                (merchant_url ++ "?"
                 ++ StoredUrl.unescaped affiliate_params)%string;
              Attribution.created_at := "timestamp" |}.
Proof.
  intros short_id merchant_url affiliate_params store Hplain.
  unfold Attribution.create_redirect_mapping.
  cbn [fst snd]. rewrite !lookup_insert_eq.
  by rewrite urlencode_plain.
Qed.

Lemma plain_parameters_are_stored_verbatim_witness :
  Forall (fun kv => StoredUrl.plain (fst kv) = true
                    /\ StoredUrl.plain (snd kv) = true)
         [("aff_id", "datapay"); ("ref", "956e8d29")]%string
  /\ snd (Attribution.create_redirect_mapping "956e8d29"
            "https://shop.example/my item"
            [("aff_id", "datapay"); ("ref", "956e8d29")]%string ∅)
       !! "956e8d29"%string
     = Some {| Attribution.url :=
                 "https://shop.example/my item?aff_id=datapay&ref=956e8d29";
               Attribution.created_at := "timestamp" |}.
Proof.
  match goal with |- ?A /\ _ => assert A as Hplain end.
  { repeat apply Forall_cons_2; [..|apply Forall_nil_2]; by split. }
  split; [exact Hplain|].
  apply (plain_parameters_are_stored_verbatim "956e8d29"
           "https://shop.example/my item" _ ∅ Hplain).
Defined.
